(** * Ground-water condition service: a model of [app.py]

    The Flask application has three routes ([/], [/predict], [/history]), one
    SQLite table ([predictions]) and one helper that sends an alert email.
    This file embeds the request handlers as functions over an explicit
    world (database, mail outbox, console) and proves what the handlers do.

    What the handlers call but the repository does not contain is taken as a
    parameter: the Python runtime's [float(str)], [str()], [json] codec and
    [email] package (class [Runtime]) and the two pickled artifacts (class
    [Artifacts]).
    What the outside world decides during a request (environment variables,
    the clock, failures of the mail server or of the database engine) is an
    argument of the handler: the record [context].

    Around the handlers stand the framework and the engine, modelled as
    they behave:
    - a view receives [request.json] already parsed, a Python value;
    - an exception of class [Exception] that leaves a view becomes a
      response with status 500, and the server goes on ([serve]);
    - the [table] of the world is what the database file holds of
      [predictions]: its rows and its sequence counter. Whether the file
      has the table at all is the engine's to answer: on a file without
      it a statement of the handlers raises [OperationalError], a fault
      of [sqlite_execute];
    - the connection of a request is closed when the request ends, and
      what was not committed is lost ([close_db]);
    - [AUTOINCREMENT] never gives an id twice ([next_rowid]); a NaN bound
      to a REAL column is stored as NULL, and a negative zero comes back as
      0.0 ([bind_real]). *)

From Stdlib Require Import ZArith Floats Ascii.
From stdpp Require Import gmap strings pretty list sorting.

Set Warnings "-inexact-float,-register-all,-clear-no-such-hyp".
#[local] Open Scope Z_scope.

(** ** Python values

    The values [request.json] and [json.loads] produce. Floats are IEEE
    binary64, as in CPython; a JSON object is a [dict] with string keys. *)

Inductive pyval : Type :=
  | PNone
  | PBool (b : bool)
  | PInt (n : Z)
  | PFloat (x : float)
  | PStr (s : string)
  | PList (l : list pyval)
  | PDict (d : gmap string pyval).

(** ** Exceptions

    An exception is its class and its message. [KeyboardInterrupt] and
    [SystemExit] derive from [BaseException] only, so [except Exception]
    does not catch them; every other class below derives from [Exception]. *)

Inductive exn_class : Type :=
  | KeyError | TypeError | ValueError | OverflowError | AttributeError
  | JSONDecodeError | OSError | SMTPException | SMTPAuthenticationError
  | OperationalError | HeaderParseError | HeaderWriteError | UnicodeEncodeError
  | KeyboardInterrupt | SystemExit.

Record exn : Type := Exn { exn_cls : exn_class; exn_msg : string }.

Definition is_Exception (e : exn) : bool :=
  match exn_cls e with
  | KeyboardInterrupt | SystemExit => false
  | _ => true
  end.

Inductive result (A : Type) : Type :=
  | Ok (a : A)
  | Raise (e : exn).
Arguments Ok {A} a.
Arguments Raise {A} e.

#[global] Instance result_ret : MRet result := λ A a, Ok a.
#[global] Instance result_bind : MBind result := λ A B f m,
  match m with
  | Ok a => f a
  | Raise e => Raise e
  end.

Definition is_Ok {A} (r : result A) : Prop := ∃ a, r = Ok a.

(** ** Messages

    A message as [send_email_alert] builds it: the headers [From], [To]
    and [Subject], and the text of its one part. *)

Record email : Type := Email {
  mail_from : string;
  mail_to : string;
  mail_subject : string;
  mail_body : string;
}.

(** What the [email] package raises on a text it cannot encode or on a
    header it cannot write, with the message of the error. The three
    classes derive from [Exception]. *)
Module EmailError.
Inductive t : Type :=
  | HeaderParse (msg : string)
  | HeaderWrite (msg : string)
  | UnicodeEncode (msg : string).
End EmailError.

Definition email_exn (e : EmailError.t) : exn :=
  match e with
  | EmailError.HeaderParse msg => Exn HeaderParseError msg
  | EmailError.HeaderWrite msg => Exn HeaderWriteError msg
  | EmailError.UnicodeEncode msg => Exn UnicodeEncodeError msg
  end.

(** ** Built-ins of the Python runtime used by the handlers *)

Class Runtime : Type := {
  (** [float(s)] on a string: [None] stands for [ValueError]. *)
  float_of_str : string → option float;
  (** [str(v)], as an f-string formats a value. *)
  py_str : pyval → string;
  (** [json.dumps] and [json.loads]. *)
  json_dumps : pyval → string;
  json_loads : string → result pyval;
  (** [MIMEText(message, "plain")]: the error it raises, if the text has no
      encoding. *)
  MIMEText_error : string → option EmailError.t;
  (** [msg.as_string()]: the text of the message, or the error raised on a
      header that cannot be written. *)
  as_string : email → EmailError.t + string;
}.

(** [float(n)] on an [int]: the nearest binary64 (ties to even); a value
    out of range raises [OverflowError]. *)
Definition float_of_int (n : Z) : result float :=
  let x := SF2Prim (binary_normalize prec emax n 0 false) in
  if is_infinity x then Raise (Exn OverflowError "int too large to convert to float")
  else Ok x.

Section Builtins.
Context `{RT : Runtime}.

(** [float(v)] *)
Definition py_float (v : pyval) : result float :=
  match v with
  | PFloat x => Ok x
  | PInt n => float_of_int n
  | PBool b => Ok (if b then 1%float else 0%float)
  | PStr s =>
      match float_of_str s with
      | Some x => Ok x
      | None => Raise (Exn ValueError "could not convert string to float")
      end
  | PNone | PList _ | PDict _ =>
      Raise (Exn TypeError "float() argument must be a string or a real number")
  end.

(** [v[k]] for a string key [k] *)
Definition py_getitem (v : pyval) (k : string) : result pyval :=
  match v with
  | PDict d =>
      match d !! k with
      | Some x => Ok x
      | None => Raise (Exn KeyError k)
      end
  | PStr _ | PList _ =>
      Raise (Exn TypeError "indices must be integers or slices, not str")
  | PNone | PBool _ | PInt _ | PFloat _ =>
      Raise (Exn TypeError "object is not subscriptable")
  end.

(** [v.get(k)] *)
Definition py_get (v : pyval) (k : string) : result pyval :=
  match v with
  | PDict d => Ok (default PNone (d !! k))
  | _ => Raise (Exn AttributeError "object has no attribute 'get'")
  end.

(** Truth value of [v] in a condition. A NaN is true: it differs from 0. *)
Definition truthy (v : pyval) : bool :=
  match v with
  | PNone => false
  | PBool b => b
  | PInt n => negb (n =? 0)
  | PFloat x => negb (x =? 0)%float
  | PStr s => negb (String.eqb s "")
  | PList l => negb (bool_decide (length l = 0%nat))
  | PDict d => negb (bool_decide (size d = 0%nat))
  end.
End Builtins.

(** Truth value of the result of [os.getenv]: unset and empty are false. *)
Definition truthy_env (v : option string) : bool :=
  match v with
  | Some s => negb (String.eqb s "")
  | None => false
  end.

(** ** FEATURE ORDER and THRESHOLDS *)

Definition features_order : list string := [
  "Recharge from rainfall During Monsoon Season";
  "Recharge from other sources During Monsoon Season";
  "Recharge from rainfall During Non Monsoon Season";
  "Recharge from other sources During Non Monsoon Season";
  "Total Natural Discharges";
  "Current Annual Ground Water Extraction For Irrigation";
  "Current Annual Ground Water Extraction For Domestic & Industrial Use";
  "Net Ground Water Availability for future use";
  "Stage of Ground Water Extraction (%)"
]%string.

(** The dict literal, in insertion order. The integer thresholds are below
    2^53, so comparing a float with them is comparing with their float. *)
Definition critical_thresholds : list (string * float) := [
  ("Recharge from rainfall During Monsoon Season", 40075);
  ("Recharge from other sources During Monsoon Season", 9366);
  ("Recharge from rainfall During Non Monsoon Season", 4850);
  ("Recharge from other sources During Non Monsoon Season", 12124);
  ("Total Natural Discharges", 5597);
  ("Current Annual Ground Water Extraction For Irrigation", 35530);
  ("Current Annual Ground Water Extraction For Domestic & Industrial Use", 4215);
  ("Net Ground Water Availability for future use", 26498);
  ("Stage of Ground Water Extraction (%)", 60.7)
]%string%float.

(** ** The pure part of [predict]: lines 130 to 137 *)

Section Decision.
Context `{RT : Runtime}.

(** [float(data[f])] *)
Definition feature_value (data : pyval) (f : string) : result float :=
  v ← py_getitem data f; py_float v.

(** [[float(data[f]) for f in features_order]] *)
Definition build_vector (data : pyval) : result (list float) :=
  mapM (feature_value data) features_order.

(** [any(float(data[f]) > critical_thresholds[f] for f in critical_thresholds)]:
    the generator is consumed up to the first true comparison. *)
Fixpoint any_exceeds (data : pyval) (ths : list (string * float)) : result bool :=
  match ths with
  | [] => Ok false
  | (f, t) :: ths' =>
      x ← feature_value data f;
      if (t <? x)%float then Ok true else any_exceeds data ths'
  end.

Definition threshold_trigger (data : pyval) : result bool :=
  any_exceeds data critical_thresholds.

(** ["CRITICAL" if raw_pred == -1 or threshold_trigger else "SAFE"] *)
Definition final_label (raw_pred : Z) (trigger : bool) : string :=
  if (raw_pred =? -1) || trigger then "CRITICAL" else "SAFE".
End Decision.

(** ** The history store

    One table, [predictions]. Every column but the key is nullable. The key
    is [INTEGER PRIMARY KEY AUTOINCREMENT]: the table is a map from row id
    to row, and the engine keeps, in [sqlite_sequence], the largest id the
    table ever held. *)

Module Row.
Record t : Type := mk {
  timestamp : option string;
  state : option string;
  district : option string;
  latitude : option float;
  longitude : option float;
  features_json : option string;
  raw_prediction : option Z;
  decision_score : option float;
  label : option string;
}.
End Row.

Record table : Type := Table { rows : gmap Z Row.t; seq : Z }.

(** The largest signed 64-bit integer: no row id is above it. *)
Definition SQLITE_MAX_ROWID : Z := 9223372036854775807.

Definition max_rowid (rs : gmap Z Row.t) : Z := foldr Z.max 0 (map_to_list rs).*1.

(** The id an [AUTOINCREMENT] insert takes: one more than the largest id the
    table holds or ever held; [SQLITE_FULL] when that one was the largest
    integer. *)
Definition next_rowid (t : table) : result Z :=
  let top := Z.max (seq t) (max_rowid (rows t)) in
  if SQLITE_MAX_ROWID <=? top
  then Raise (Exn OperationalError "database or disk is full")
  else Ok (top + 1).

Definition insert_row (r : Row.t) (t : table) : result table :=
  id ← next_rowid t; Ok (Table (<[id := r]> (rows t)) id).

(** A float bound to a statement parameter, as the REAL column gives it
    back: the engine stores a NaN as NULL, and a zero without its sign. *)
Definition bind_real (x : option float) : option float :=
  match x with
  | Some v =>
      if is_nan v then None
      else if (v =? 0)%float then Some 0%float
      else Some v
  | None => None
  end.

(** [ORDER BY id DESC] *)
Definition id_desc (a b : Z * Row.t) : Prop := b.1 ≤ a.1.

#[global] Instance id_desc_dec a b : Decision (id_desc a b) := Z_le_dec b.1 a.1.

(** [SELECT * FROM predictions ORDER BY id DESC LIMIT 100] *)
Definition select_recent (t : table) : list (Z * Row.t) :=
  take 100 (merge_sort id_desc (map_to_list (rows t))).

(** ** The world of a request *)

(** What outlives a request: the database file, the mail that left (each
    message whose text [sendmail] took), and the console. *)
Record world : Type := World {
  db : table;
  outbox : list email;
  stdout : list string;
}.

(** A request adds [g._db]: the connection of its application context, with
    the table as this connection sees it (uncommitted changes included). *)
Record reqstate : Type := ReqState { world_of : world; g_db : option table }.

Definition set_g_db (c : option table) (s : reqstate) : reqstate :=
  ReqState (world_of s) c.
Definition set_db (t : table) (s : reqstate) : reqstate :=
  ReqState (World t (outbox (world_of s)) (stdout (world_of s))) (g_db s).
Definition add_mail (m : email) (s : reqstate) : reqstate :=
  ReqState (World (db (world_of s)) (outbox (world_of s) ++ [m]) (stdout (world_of s))) (g_db s).
Definition add_line (l : string) (s : reqstate) : reqstate :=
  ReqState (World (db (world_of s)) (outbox (world_of s)) (stdout (world_of s) ++ [l])) (g_db s).

(** What the outside decides while a request runs. A fault is the exception
    the operation raises, if it does. *)
Record environ : Type := Environ {
  EMAIL_SENDER : option string;
  EMAIL_PASSWORD : option string;
  ALERT_EMAIL : option string;
}.

Record smtp_faults : Type := SmtpFaults {
  smtp_connect : option exn;
  smtp_starttls : option exn;
  smtp_login : option exn;
  smtp_sendmail : option exn;
  smtp_quit : option exn;
}.

Record sqlite_faults : Type := SqliteFaults {
  sqlite_connect : option exn;
  sqlite_execute : option exn;
  sqlite_commit : option exn;
}.

Record context : Type := Context {
  env : environ;
  smtp : smtp_faults;
  sqlite : sqlite_faults;
  (** [datetime.now(IST).isoformat()], read when the row is built *)
  now : string;
}.

(** ** Handlers: state and exceptions *)

Definition handler (A : Type) : Type := reqstate → result A * reqstate.

#[global] Instance handler_ret : MRet handler := λ A a s, (Ok a, s).
#[global] Instance handler_bind : MBind handler := λ A B f m s,
  match m s with
  | (Ok a, s') => f a s'
  | (Raise e, s') => (Raise e, s')
  end.

Definition lift {A} (r : result A) : handler A := λ s, (r, s).

Definition fault (f : option exn) : handler unit := λ s,
  match f with
  | Some e => (Raise e, s)
  | None => (Ok tt, s)
  end.

Definition print (line : string) : handler unit := λ s, (Ok tt, add_line line s).

(** [try: body except Exception as e: h e] *)
Definition try_except_Exception {A} (body : handler A) (h : exn → handler A) : handler A :=
  λ s,
  match body s with
  | (Ok a, s') => (Ok a, s')
  | (Raise e, s') => if is_Exception e then h e s' else (Raise e, s')
  end.

(** ** EMAIL ALERT FUNCTION *)

Section Alert.
Context `{RT : Runtime}.

(** [msg.as_string()], with its error as the exception raised *)
Definition msg_as_string (msg : email) : result string :=
  match as_string msg with
  | inl e => Raise (email_exn e)
  | inr text => Ok text
  end.

(** [send_email_alert(subject, message, to_email)]. Inside the [try]: the
    message is built (lines 39 to 43, where [MIMEText] can raise), then the
    SMTP session runs its five calls in order; the argument of [sendmail],
    [msg.as_string()], is evaluated after [login] and before the call. The
    message has left once [sendmail] returns. *)
Definition send_email_alert (ctx : context) (subject message to_email : string)
    : handler unit :=
  let sender_email := EMAIL_SENDER (env ctx) in
  let sender_password := EMAIL_PASSWORD (env ctx) in
  if negb (truthy_env sender_email) || negb (truthy_env sender_password) then
    print "Email Error: Missing EMAIL_SENDER or EMAIL_PASSWORD"
  else
    try_except_Exception
      (let msg := Email (default "" sender_email) to_email subject message in
       fault (email_exn <$> MIMEText_error message);;
       fault (smtp_connect (smtp ctx));;
       fault (smtp_starttls (smtp ctx));;
       fault (smtp_login (smtp ctx));;
       text ← lift (msg_as_string msg);
       fault (smtp_sendmail (smtp ctx));;
       (λ s, (Ok tt, add_mail msg s));;
       fault (smtp_quit (smtp ctx));;
       print ("Email sent successfully to " +:+ to_email))
      (λ e, print ("Email sending failed: " +:+ exn_msg e)).
End Alert.

(** ** DB FUNCTIONS *)

(** [get_db()]: the connection of this request, opened on first use. *)
Definition get_db (ctx : context) : handler unit := λ s,
  match g_db s with
  | Some _ => (Ok tt, s)
  | None =>
      match sqlite_connect (sqlite ctx) with
      | Some e => (Raise e, s)
      | None => (Ok tt, set_g_db (Some (db (world_of s))) s)
      end
  end.

(** [db.execute("INSERT INTO predictions ...", r)]: the row is in the
    connection's open transaction, not yet in the file. *)
Definition db_insert (ctx : context) (r : Row.t) : handler unit := λ s,
  match sqlite_execute (sqlite ctx) with
  | Some e => (Raise e, s)
  | None =>
      match g_db s with
      | None => (Raise (Exn OperationalError "no connection"), s)
      | Some t =>
          match insert_row r t with
          | Ok t' => (Ok tt, set_g_db (Some t') s)
          | Raise e => (Raise e, s)
          end
      end
  end.

(** [db.execute("SELECT ...").fetchall()] *)
Definition db_select_recent (ctx : context) : handler (list (Z * Row.t)) := λ s,
  match sqlite_execute (sqlite ctx) with
  | Some e => (Raise e, s)
  | None =>
      match g_db s with
      | None => (Raise (Exn OperationalError "no connection"), s)
      | Some t => (Ok (select_recent t), s)
      end
  end.

(** [db.commit()] *)
Definition db_commit (ctx : context) : handler unit := λ s,
  match sqlite_commit (sqlite ctx) with
  | Some e => (Raise e, s)
  | None =>
      match g_db s with
      | None => (Raise (Exn OperationalError "no connection"), s)
      | Some t => (Ok tt, set_db t s)
      end
  end.

(** [init_db()]. [CREATE TABLE IF NOT EXISTS] writes no row and gives no
    id: the rows and the sequence counter of the world are the same before
    and after it, on a file that had the table and on one that had not.
    What is modelled of [init_db] is the connection, the statement and
    the commit, each of which can fail. *)
Definition init_db (ctx : context) : handler unit :=
  get_db ctx;; fault (sqlite_execute (sqlite ctx));; db_commit ctx.

(** [close_db(error)], the teardown of the application context: the
    connection is closed and what it had not committed is lost. *)
Definition close_db (s : reqstate) : world := world_of (set_g_db None s).

(** ** Strings of the alert *)

Definition LF : string := String "010"%char "".

(** ASCII white space, as [str.strip()] removes it. *)
Definition is_space (c : ascii) : bool :=
  let n := nat_of_ascii c in
  ((9 <=? n) && (n <=? 13) || (28 <=? n) && (n <=? 32))%nat.

Fixpoint lstrip (s : string) : string :=
  match s with
  | String c s' => if is_space c then lstrip s' else s
  | EmptyString => EmptyString
  end.

Definition strip (s : string) : string := String.rev (lstrip (String.rev (lstrip s))).

(** ** Artifacts: [scaler.pkl] and [final_isolation_forest_model.pkl] *)

Class Artifacts : Type := {
  (** [scaler.transform(X)] on the one-row array [X] *)
  scaler_transform : list float → result (list float);
  (** [int(model.predict(X_scaled)[0])], a 64-bit integer of the array *)
  model_predict : list float → result Z;
  (** [float(model.decision_function(X_scaled)[0])] *)
  model_decision_function : list float → result float;
}.

(** ** JSON bodies of the responses *)

Module Prediction.
Record t : Type := mk {
  success : bool;
  label : string;
  raw_prediction : Z;
  decision_score : float;
}.
End Prediction.

Module Item.
Record t : Type := mk {
  id : Z;
  timestamp : option string;
  latitude : option float;
  longitude : option float;
  features : pyval;
  raw_prediction : option Z;
  decision_score : option float;
  label : string;
}.
End Item.

Section Handlers.
Context `{RT : Runtime} `{AF : Artifacts}.

(** [{f: data[f] for f in features_order}] *)
Definition features_dict (data : pyval) : result pyval :=
  kvs ← mapM (λ f, v ← py_getitem data f; Ok (f, v)) features_order;
  Ok (PDict (foldl (λ d kv, <[kv.1 := kv.2]> d) ∅ kvs)).

(** [float(data[k]) if data.get(k) else None] *)
Definition coordinate (data : pyval) (k : string) : result (option float) :=
  p ← py_get data k;
  if truthy p then v ← py_getitem data k; x ← py_float v; Ok (Some x)
  else Ok None.

Definition alert_subject (final_label : string) : string :=
  "Groundwater Alert: " +:+ final_label.

Definition alert_message (lat lon : pyval) (final_label : string) (score : float)
    : string :=
  strip (LF +:+ "Groundwater condition at (" +:+ py_str lat +:+ ", " +:+ py_str lon
         +:+ ") is " +:+ final_label +:+ "." +:+ LF
         +:+ "Decision Score: " +:+ py_str (PFloat score) +:+ LF).

(** The block EMAIL ALERT of [predict] (lines 140 to 148):
    [receiver_email = os.getenv("ALERT_EMAIL")], and the call when it is
    set and not empty. *)
Definition dispatch_alert (ctx : context) (data : pyval) (final_label : string)
    (score : float) : handler unit :=
  match ALERT_EMAIL (env ctx) with
  | Some receiver_email =>
      if truthy_env (Some receiver_email) then
        lat ← lift (py_get data "latitude");
        lon ← lift (py_get data "longitude");
        send_email_alert ctx (alert_subject final_label)
          (alert_message lat lon final_label score) receiver_email
      else mret tt
  | None => mret tt
  end.

(** *** PREDICT *)
Definition predict (ctx : context) (data : pyval) : handler Prediction.t :=
  X ← lift (build_vector data);
  X_scaled ← lift (scaler_transform X);
  raw_pred ← lift (model_predict X_scaled);
  score ← lift (model_decision_function X_scaled);
  threshold_trigger ← lift (threshold_trigger data);
  let final_label := final_label raw_pred threshold_trigger in
  dispatch_alert ctx data final_label score;;
  (* SAVE TO DB *)
  get_db ctx;;
  latitude ← lift (coordinate data "latitude");
  longitude ← lift (coordinate data "longitude");
  features ← lift (features_dict data);
  db_insert ctx
    (Row.mk (Some (now ctx)) None None (bind_real latitude) (bind_real longitude)
            (Some (json_dumps features)) (Some raw_pred) (bind_real (Some score))
            (Some final_label));;
  db_commit ctx;;
  mret (Prediction.mk true final_label raw_pred score).

(** *** HISTORY *)

(** [json.loads(r["features_json"])] *)
Definition loads_column (c : option string) : result pyval :=
  match c with
  | Some s => json_loads s
  | None => Raise (Exn TypeError "the JSON object must be str, bytes or bytearray")
  end.

(** [r["label"] if r["label"] else ("CRITICAL" if r["raw_prediction"] == -1 else "SAFE")] *)
Definition label_on_read (r : Row.t) : string :=
  let derived :=
    if bool_decide (Row.raw_prediction r = Some (-1)) then "CRITICAL" else "SAFE" in
  match Row.label r with
  | Some l => if negb (String.eqb l "") then l else derived
  | None => derived
  end.

(** One turn of the loop over [rows]. *)
Definition history_item (r : Z * Row.t) : result Item.t :=
  let label := label_on_read r.2 in
  features ← loads_column (Row.features_json r.2);
  Ok (Item.mk r.1 (Row.timestamp r.2) (Row.latitude r.2) (Row.longitude r.2)
              features (Row.raw_prediction r.2) (Row.decision_score r.2) label).

Definition history (ctx : context) : handler (list Item.t) :=
  get_db ctx;;
  rows ← db_select_recent ctx;
  lift (mapM history_item rows).

(** *** HOME PAGE: a static template *)
Definition index : handler unit := mret tt.

(** ** One request

    Flask turns an exception of class [Exception] that leaves a view into
    a 500 response and tears the application context down; an exception
    outside [Exception] ends the server. *)

Inductive outcome (A : Type) : Type :=
  | Responded (status : Z) (body : option A)
  | Crashed (e : exn).
#[global] Arguments Responded {A} status body.
#[global] Arguments Crashed {A} e.

(** The answer to a request whose view raised [e]. *)
Definition failed {A} (e : exn) : outcome A :=
  if is_Exception e then Responded 500 None else Crashed e.

(** A view is run in a fresh application context, which is torn down
    ([close_db]) whatever the view did. *)
Definition serve {A} (view : handler A) (w : world) : outcome A * world :=
  let '(r, s) := view (ReqState w None) in
  (match r with
   | Ok a => Responded 200 (Some a)
   | Raise e => failed e
   end, close_db s).

Inductive request : Type :=
  | GetIndex
  | PostPredict (data : pyval)
  | GetHistory
  | InitDb.

(** The world after one request. *)
Definition step (w : world) (cr : context * request) : world :=
  match cr.2 with
  | GetIndex => (serve index w).2
  | PostPredict data => (serve (predict cr.1 data) w).2
  | GetHistory => (serve (history cr.1) w).2
  | InitDb => (serve (init_db cr.1) w).2
  end.

(** The world after a sequence of requests, served one after the other. *)
Definition run (w : world) (reqs : list (context * request)) : world :=
  foldl step w reqs.
End Handlers.


(** ** The blocks of [predict]

    [predict] is its three blocks in sequence: the verdict (lines 130 to
    137), the alert (lines 140 to 148) and the insert (lines 151 to 175).
    The blocks are named here; [predict_blocks] shows that [predict] is
    their sequence. *)

Definition raise_if (f : option exn) : result unit :=
  match f with
  | Some e => Raise e
  | None => Ok tt
  end.

Section Blocks.
Context `{RT : Runtime} `{AF : Artifacts}.

Definition verdict (data : pyval) : result (Z * float * bool) :=
  X ← build_vector data;
  X_scaled ← scaler_transform X;
  raw_pred ← model_predict X_scaled;
  score ← model_decision_function X_scaled;
  trigger ← threshold_trigger data;
  Ok (raw_pred, score, trigger).

Definition row_of (ctx : context) (data : pyval) (raw_pred : Z) (score : float)
    (final_label : string) : result Row.t :=
  latitude ← coordinate data "latitude";
  longitude ← coordinate data "longitude";
  features ← features_dict data;
  Ok (Row.mk (Some (now ctx)) None None (bind_real latitude) (bind_real longitude)
             (Some (json_dumps features)) (Some raw_pred) (bind_real (Some score))
             (Some final_label)).

Definition save (ctx : context) (data : pyval) (raw_pred : Z) (score : float)
    (final_label : string) : handler Prediction.t :=
  get_db ctx;;
  r ← lift (row_of ctx data raw_pred score final_label);
  db_insert ctx r;;
  db_commit ctx;;
  mret (Prediction.mk true final_label raw_pred score).

(** The table the block SAVE TO DB commits, from the table [t] on file. *)
Definition stored (ctx : context) (data : pyval) (raw_pred : Z) (score : float)
    (final_label : string) (t : table) : result table :=
  raise_if (sqlite_connect (sqlite ctx));;
  r ← row_of ctx data raw_pred score final_label;
  raise_if (sqlite_execute (sqlite ctx));;
  t' ← insert_row r t;
  raise_if (sqlite_commit (sqlite ctx));;
  Ok t'.
End Blocks.

(** ** Vocabulary of the statements *)

(** Strictly descending ids. *)
Definition id_gt (a b : Z * Row.t) : Prop := b.1 < a.1.

(** A client error: a response with a status from 400 to 499. *)
Definition client_error {A} (o : outcome A) : Prop :=
  ∃ status body, o = Responded status body ∧ 400 ≤ status ≤ 499.

(** The exceptions a mail session can raise. *)
Definition raised_by (f : smtp_faults) : list exn :=
  omap id [smtp_connect f; smtp_starttls f; smtp_login f; smtp_sendmail f; smtp_quit f].

(** Every failure of the mail session is an [Exception]: refused
    connection, failed handshake, rejected login, rejected message. *)
Definition only_Exception (f : smtp_faults) : Prop :=
  Forall (λ e, is_Exception e = true) (raised_by f).

(** Both credentials are set and not empty. *)
Definition credentials_set (ctx : context) : bool :=
  truthy_env (EMAIL_SENDER (env ctx)) && truthy_env (EMAIL_PASSWORD (env ctx)).

(** The mail session gets through [sendmail]: none of the four calls up
    to it raises. *)
Definition reaches_sendmail (f : smtp_faults) : bool :=
  match smtp_connect f, smtp_starttls f, smtp_login f, smtp_sendmail f with
  | None, None, None, None => true
  | _, _, _, _ => false
  end.

(** The text does not end in white space, so that [strip] takes nothing
    from its end: [str] of a float is such a text. *)
Definition ends_visible (s : string) : Prop :=
  ∃ s' c, s = s' +:+ String c "" ∧ is_space c = false.

Section MailVocabulary.
Context `{RT : Runtime}.

(** The [email] package takes the message: [MIMEText] encodes its text and
    [as_string] writes its headers. *)
Definition accepted (msg : email) : bool :=
  match MIMEText_error (mail_body msg), as_string msg with
  | None, inr _ => true
  | _, _ => false
  end.

(** What the steps inside the [try] would raise, in the order in which
    they run: the first of the list is the exception raised. *)
Definition raised_in (ctx : context) (msg : email) : list exn :=
  omap id [email_exn <$> MIMEText_error (mail_body msg);
           smtp_connect (smtp ctx); smtp_starttls (smtp ctx); smtp_login (smtp ctx);
           match as_string msg with inl e => Some (email_exn e) | inr _ => None end;
           smtp_sendmail (smtp ctx); smtp_quit (smtp ctx)].

(** The line [send_email_alert] prints when it returns. *)
Definition logged_line (ctx : context) (subject message to_email : string) : string :=
  if credentials_set ctx then
    match raised_in ctx (Email (default "" (EMAIL_SENDER (env ctx))) to_email
                           subject message) with
    | [] => "Email sent successfully to " +:+ to_email
    | e :: _ => "Email sending failed: " +:+ exn_msg e
    end
  else "Email Error: Missing EMAIL_SENDER or EMAIL_PASSWORD".
End MailVocabulary.

(** A row as [predict] writes them: no state and no district, a raw
    verdict, and a label that is "CRITICAL", or "SAFE" with a verdict
    other than -1. *)
Definition well_labelled (r : Row.t) : Prop :=
  Row.state r = None ∧ Row.district r = None ∧
  ∃ raw, Row.raw_prediction r = Some raw ∧
         (Row.label r = Some "CRITICAL" ∨ (Row.label r = Some "SAFE" ∧ raw ≠ -1)).

Section Vocabulary.
Context `{RT : Runtime}.




(** The rule of a coordinate column: [c] is what the new row holds for
    the payload field [k]. A castable value with truth is held as its
    float; the engine holds a NaN as NULL and a negative zero (the float
    of "-0") as 0.0. *)
Definition coordinate_rule (data : pyval) (k : string) (c : option float) : Prop :=
  ∃ d, data = PDict d ∧
    (d !! k = None → c = None) ∧
    (∀ v, d !! k = Some v → truthy v = false → ¬ is_Ok (py_float v) → c = None) ∧
    (∀ v, d !! k = Some v → truthy v = true →
          ∃ x, py_float v = Ok x ∧
               c = if is_nan x then None
                   else if (x =? 0)%float then Some 0%float
                   else Some x).

(** [features] is an object with the nine canonical names, each with the
    value submitted under it, and no other key. *)
Definition submitted_features (data features : pyval) : Prop :=
  ∃ d', features = PDict d' ∧
    (∀ f, f ∈ features_order → ∃ v, py_getitem data f = Ok v ∧ d' !! f = Some v) ∧
    (∀ k, k ∉ features_order → d' !! k = None).
End Vocabulary.

(** * Fixtures

    A small runtime, a small model, and a few payloads, contexts and worlds
    on which the handlers are run in the examples. *)

Module Demo.

(** [float(s)] for ["nan"] and for strings of decimal digits. *)
Fixpoint digits (s : string) (acc : Z) : option Z :=
  match s with
  | EmptyString => Some acc
  | String c s' =>
      match Ascii.is_nat c with
      | Some d => digits s' (10 * acc + Z.of_nat d)
      | None => None
      end
  end.

Definition float_of_str (s : string) : option float :=
  if String.eqb s "nan" then Some nan
  else if String.eqb s "" then None
  else
    match digits s 0 with
    | Some n => match float_of_int n with Ok x => Some x | Raise _ => None end
    | None => None
    end.

(** The digits of [r / den] after the point, for [0 <= r < den], up to the
    last that is not 0. *)
Fixpoint frac_digits (fuel : nat) (r den : Z) : string :=
  match fuel with
  | O => ""
  | S fuel' =>
      if r =? 0 then ""
      else String (ascii_of_nat (48 + Z.to_nat (10 * r / den)))
                  (frac_digits fuel' (10 * r mod den) den)
  end.

(** [str(x)] of a float, written out exactly: what Python prints for a
    float with a short decimal expansion, such as 0.5, 0.25 or 12.0. *)
Definition str_float (x : float) : string :=
  match Prim2SF x with
  | S754_nan => "nan"
  | S754_infinity s => if s then "-inf" else "inf"
  | S754_zero s => if s then "-0.0" else "0.0"
  | S754_finite s m e =>
      let num := if 0 <=? e then Z.pos m * 2 ^ e else Z.pos m in
      let den := if 0 <=? e then 1 else 2 ^ (- e) in
      let frac := frac_digits (Z.to_nat (- e)) (num mod den) den in
      (if s then "-" else "") +:+ pretty (num / den) +:+ "."
        +:+ (if String.eqb frac "" then "0" else frac)
  end.

Definition str (v : pyval) : string :=
  match v with
  | PNone => "None"
  | PBool b => if b then "True" else "False"
  | PInt n => pretty n
  | PStr s => s
  | PFloat x => str_float x
  | PList _ => "<list>"
  | PDict _ => "<dict>"
  end.

(** The [email] package, as far as the alert meets it.

    [MIMEText] refuses a text with a lone surrogate, which no codec
    encodes: in a string of bytes, the byte 237 before a byte from 160 to
    191. *)
Fixpoint has_surrogate (s : string) : bool :=
  match s with
  | String a ((String b _) as s') =>
      (nat_of_ascii a =? 237)%nat && (160 <=? nat_of_ascii b)%nat
        && (nat_of_ascii b <=? 191)%nat
      || has_surrogate s'
  | _ => false
  end.

Definition MIMEText_error (text : string) : option EmailError.t :=
  if has_surrogate text
  then Some (EmailError.UnicodeEncode "'utf-8' codec can't encode character: surrogates not allowed")
  else None.

(** [as_string] refuses a header value in which a line feed is followed by
    a name and a colon: an embedded header. *)
Inductive hstate : Type := HOut | HLine | HName.

Definition is_blank (c : ascii) : bool := Ascii.eqb c " " || Ascii.eqb c "009".

Fixpoint embedded_header (st : hstate) (s : string) : bool :=
  match s with
  | EmptyString => false
  | String c s' =>
      match st with
      | HOut => embedded_header (if Ascii.eqb c "010" then HLine else HOut) s'
      | HLine => embedded_header (if is_blank c then HOut else HName) s'
      | HName =>
          if Ascii.eqb c ":" then true
          else embedded_header (if is_blank c then HOut else HName) s'
      end
  end.

(** The text of a message, without the framing of its parts. *)
Definition as_string (msg : email) : EmailError.t + string :=
  if existsb (embedded_header HOut) [mail_from msg; mail_to msg; mail_subject msg]
  then inl (EmailError.HeaderParse "header value appears to contain an embedded header")
  else inr ("From: " +:+ mail_from msg +:+ String "010" ("To: " +:+ mail_to msg)
            +:+ String "010" ("Subject: " +:+ mail_subject msg)
            +:+ String "010" (String "010" (mail_body msg))).

(** A JSON codec for flat objects of integers and plain strings. *)

Definition DQ : ascii := ascii_of_nat 34.
Definition quoted (s : string) : string := String DQ (s +:+ String DQ "").

Definition dumps_scalar (v : pyval) : string :=
  match v with
  | PInt n => pretty n
  | PStr s => quoted s
  | _ => "null"
  end.

Fixpoint join (sep : string) (l : list string) : string :=
  match l with
  | [] => ""
  | [x] => x
  | x :: l' => x +:+ sep +:+ join sep l'
  end.

Definition dumps (v : pyval) : string :=
  match v with
  | PDict d =>
      "{" +:+ join ", " ((λ kv, quoted kv.1 +:+ ": " +:+ dumps_scalar kv.2) <$> map_to_list d)
          +:+ "}"
  | _ => dumps_scalar v
  end.

Inductive pstate : Type :=
  | PStart
  | PFirstKey
  | PKey (acc : list (string * pyval))
  | PInKey (acc : list (string * pyval)) (k : string)
  | PColon (acc : list (string * pyval)) (k : string)
  | PValue (acc : list (string * pyval)) (k : string)
  | PInStr (acc : list (string * pyval)) (k v : string)
  | PInInt (acc : list (string * pyval)) (k : string) (neg : bool) (n : Z)
  | PAfter (acc : list (string * pyval))
  | PEnd (acc : list (string * pyval))
  | PFail.

Definition snoc_char (s : string) (c : ascii) : string := s +:+ String c "".

Definition int_value (neg : bool) (n : Z) : pyval := PInt (if neg then - n else n).

Definition pstep (st : pstate) (c : ascii) : pstate :=
  match st with
  | PStart => if Ascii.eqb c "{" then PFirstKey else PFail
  | PFirstKey =>
      if Ascii.eqb c DQ then PInKey [] ""
      else if Ascii.eqb c "}" then PEnd [] else PFail
  | PKey acc =>
      if Ascii.eqb c " " then PKey acc
      else if Ascii.eqb c DQ then PInKey acc "" else PFail
  | PInKey acc k => if Ascii.eqb c DQ then PColon acc k else PInKey acc (snoc_char k c)
  | PColon acc k => if Ascii.eqb c ":" then PValue acc k else PFail
  | PValue acc k =>
      if Ascii.eqb c " " then PValue acc k
      else if Ascii.eqb c DQ then PInStr acc k ""
      else if Ascii.eqb c "-" then PInInt acc k true 0
      else match Ascii.is_nat c with
           | Some d => PInInt acc k false (Z.of_nat d)
           | None => PFail
           end
  | PInStr acc k v =>
      if Ascii.eqb c DQ then PAfter (acc ++ [(k, PStr v)]) else PInStr acc k (snoc_char v c)
  | PInInt acc k neg n =>
      match Ascii.is_nat c with
      | Some d => PInInt acc k neg (10 * n + Z.of_nat d)
      | None =>
          if Ascii.eqb c "," then PKey (acc ++ [(k, int_value neg n)])
          else if Ascii.eqb c "}" then PEnd (acc ++ [(k, int_value neg n)])
          else PFail
      end
  | PAfter acc =>
      if Ascii.eqb c "," then PKey acc
      else if Ascii.eqb c "}" then PEnd acc else PFail
  | PEnd _ | PFail => PFail
  end.

Fixpoint pscan (st : pstate) (s : string) : pstate :=
  match s with
  | EmptyString => st
  | String c s' => pscan (pstep st c) s'
  end.

Definition loads (s : string) : result pyval :=
  match pscan PStart s with
  | PEnd acc => Ok (PDict (foldl (λ d kv, <[kv.1 := kv.2]> d) ∅ acc))
  | _ => Raise (Exn JSONDecodeError "Expecting value")
  end.

Definition runtime : Runtime :=
  Build_Runtime float_of_str str dumps loads MIMEText_error as_string.

(** The scaler is the identity; the model flags a row whose first
    feature is above 50000, and scores every row 0.5. *)
Definition artifacts : Artifacts := {|
  scaler_transform X := Ok X;
  model_predict X :=
    Ok (match X with x :: _ => if (50000 <? x)%float then -1 else 1 | [] => 1 end);
  model_decision_function X := Ok 0.5%float;
|}.

Definition no_smtp_faults : smtp_faults := SmtpFaults None None None None None.
Definition no_sqlite_faults : sqlite_faults := SqliteFaults None None None.

(** No [ALERT_EMAIL]: alerting is off. *)
Definition quiet : context :=
  Context (Environ None None None) no_smtp_faults no_sqlite_faults
          "2024-05-01T10:00:00+05:30".

(** Alerting on, mail server reachable. *)
Definition alerting : context :=
  Context (Environ (Some "sender@example.org") (Some "secret") (Some "ops@example.org"))
          no_smtp_faults no_sqlite_faults "2024-05-01T10:00:00+05:30".

(** A payload: the nine features with the given values, and more fields. *)
Definition payload (values : list pyval) (more : list (string * pyval)) : pyval :=
  PDict (list_to_map (zip features_order values ++ more)).

Definition low : list pyval := replicate 9 (PInt 10).

(** Every feature exactly at its critical threshold. *)
Definition at_limits : pyval :=
  payload [PInt 40075; PInt 9366; PInt 4850; PInt 12124; PInt 5597; PInt 35530;
           PInt 4215; PInt 26498; PFloat 60.7] [].

Definition empty_world : world := World (Table ∅ 0) [] [].

(** A table with two rows written before the column [label] existed. *)
Definition legacy_row (raw : Z) : Row.t :=
  Row.mk (Some "2023-01-01T00:00:00+05:30") None None None None
         (Some "{}") (Some raw) (Some 0.25%float) None.

Definition legacy_world : world :=
  World (Table (<[1 := legacy_row (-1)]> (<[2 := legacy_row 1]> ∅)) 2) [] [].

(** Alerting on, and the mail server rejects the login. *)
Definition rejected : context :=
  Context (Environ (Some "sender@example.org") (Some "wrong") (Some "ops@example.org"))
          (SmtpFaults None None
             (Some (Exn SMTPAuthenticationError "Username and Password not accepted"))
             None None)
          no_sqlite_faults "2024-05-01T10:00:00+05:30".

(** Alerting on, and the database is locked when the insert is committed. *)
Definition locked : context :=
  Context (Environ (Some "sender@example.org") (Some "secret") (Some "ops@example.org"))
          no_smtp_faults
          (SqliteFaults None None (Some (Exn OperationalError "database is locked")))
          "2024-05-01T10:00:00+05:30".

(** A table with one row whose label is the empty string. *)
Definition blank_row : Row.t :=
  Row.mk (Some "2023-01-01T00:00:00+05:30") None None None None
         (Some "{}") (Some (-1)) (Some 0.25%float) (Some "").

Definition blank_world : world := World (Table (<[1 := blank_row]> ∅) 1) [] [].
(** Alerting on, and the server drops the connection at [quit]. *)
Definition hangup : context :=
  Context (Environ (Some "sender@example.org") (Some "secret") (Some "ops@example.org"))
          (SmtpFaults None None None None
             (Some (Exn SMTPException "Connection unexpectedly closed")))
          no_sqlite_faults "2024-05-01T10:00:00+05:30".

(** Alerting on, to a destination that carries a second header. *)
Definition injected : context :=
  Context (Environ (Some "sender@example.org") (Some "secret")
             (Some ("ops@example.org" +:+ String "010" "Bcc: all@example.org")))
          no_smtp_faults no_sqlite_faults "2024-05-01T10:00:00+05:30".

(** A payload the model flags: the first feature is above every bound. *)
Definition high : pyval := payload (PInt 60000 :: replicate 8 (PInt 10)) [].

(** The payload [low] with a field the application does not know. *)
Definition low_with_note : pyval := payload low [("note", PStr "well 7")].

(** A payload without its first and its third feature. *)
Definition two_missing : pyval :=
  PDict (list_to_map (zip (drop 3 features_order) (replicate 6 (PInt 10))
                      ++ [("Recharge from other sources During Monsoon Season", PInt 10)])).

(** A model that refuses a row with a NaN, and is [artifacts] otherwise. *)
Definition strict_artifacts : Artifacts := {|
  scaler_transform X := Ok X;
  model_predict X :=
    if existsb is_nan X then Raise (Exn ValueError "Input X contains NaN.")
    else Ok (match X with x :: _ => if (50000 <? x)%float then -1 else 1 | [] => 1 end);
  model_decision_function X := Ok 0.5%float;
|}.

#[local] Existing Instance runtime.
#[local] Existing Instance artifacts.

(** A payload whose ninth feature is a NaN. *)
Definition nan_stage : pyval :=
  payload (replicate 8 (PInt 10) ++ [PFloat nan]) [].

(** What [GET /history] returns on the legacy table. *)
Definition legacy_items : list Item.t :=
  Eval vm_compute in
    match (serve (history quiet) legacy_world).1 with
    | Responded _ (Some items) => items
    | _ => []
    end.

(** A payload with a latitude that is a string and not a number. *)
Definition garbled_latitude : pyval :=
  payload low [("latitude", PStr "abc")].

(** A payload at 12 degrees of latitude, with no longitude. *)
Definition at_twelve : pyval := payload low [("latitude", PStr "12")].

(** A payload on the equator: latitude 0. *)
Definition on_equator : pyval :=
  payload low [("latitude", PInt 0); ("longitude", PStr "77")].
End Demo.
(** * Properties *)

(** ** Comparisons of binary64 values *)






(** ** The two monads *)

Lemma result_bind_Ok {A B} (m : result A) (f : A → result B) b :
  m ≫= f = Ok b ↔ ∃ a, m = Ok a ∧ f a = Ok b.
Proof. destruct m; simpl; naive_solver. Qed.

Lemma result_bind_Raise {A B} (m : result A) (f : A → result B) e :
  m ≫= f = Raise e ↔ m = Raise e ∨ ∃ a, m = Ok a ∧ f a = Raise e.
Proof. destruct m; simpl; naive_solver. Qed.

Lemma mapM_Ok {A B} (f : A → result B) l k :
  mapM f l = Ok k ↔ Forall2 (λ x y, f x = Ok y) l k.
Proof.
  revert k. induction l as [|x l IH]; intros k; simpl.
  - split; [intros [= <-]; constructor | by inv 1].
  - split.
    + intros (y & Hy & (k' & Hk' & [= <-])%result_bind_Ok)%result_bind_Ok.
      constructor; [done | by apply IH].
    + inv 1 as [|? y ? k' Hy Hk']. rewrite Hy. simpl.
      apply IH in Hk'. by rewrite Hk'.
Qed.

Lemma mapM_cons {A B} (f : A → result B) x l :
  mapM f (x :: l) = (y ← f x; k ← mapM f l; mret (y :: k)).
Proof. done. Qed.

Lemma mapM_Raise {A B} (f : A → result B) l e :
  mapM f l = Raise e → ∃ x, x ∈ l ∧ f x = Raise e.
Proof.
  induction l as [|x l IH]; simpl; [done |].
  intros [Hx | (y & Hy & [Hl | (k & _ & ?)]%result_bind_Raise)]%result_bind_Raise.
  - exists x. split; [left | done].
  - destruct (IH Hl) as (x' & ? & ?). exists x'. split; [by right | done].
  - done.
Qed.

Lemma mapM_is_Ok {A B} (f : A → result B) l :
  (∀ x, x ∈ l → is_Ok (f x)) → is_Ok (mapM f l).
Proof.
  induction l as [|x l IH]; intros Hl; simpl; [by eexists |].
  destruct (Hl x) as [y Hy]; [left |]. rewrite Hy. simpl.
  destruct IH as [k Hk]; [intros; apply Hl; by right |]. rewrite Hk. by eexists.
Qed.

(** Sequencing, in either monad, down to the [match] on the result. *)
Ltac unfold_binds := cbv [mbind handler_bind result_bind lift mret handler_ret result_ret].

Lemma handler_bind_unfold {A B} (m : handler A) (f : A → handler B) s :
  (m ≫= f) s =
  match m s with
  | (Ok a, s') => f a s'
  | (Raise e, s') => (Raise e, s')
  end.
Proof. done. Qed.

Lemma mapM_Ok_elem {A B} (f : A → result B) l k x :
  mapM f l = Ok k → x ∈ l → is_Ok (f x).
Proof.
  intros Hk%mapM_Ok Hx. induction Hk as [|x' y l k Hy Hk IH]; [by inv Hx |].
  inv Hx; [by exists y | auto].
Qed.

(** The comprehension raises as soon as one element does. *)
Lemma mapM_Raise_elem {A B} (f : A → result B) l x e0 :
  x ∈ l → f x = Raise e0 → ∃ e y, mapM f l = Raise e ∧ y ∈ l ∧ f y = Raise e.
Proof.
  intros Hx Hfx. destruct (mapM f l) as [k|e] eqn:Hm.
  - destruct (mapM_Ok_elem f l k x Hm Hx) as [y Hy]. congruence.
  - destruct (mapM_Raise f l e Hm) as (y & ? & ?). by exists e, y.
Qed.

(** ** [predict] is the sequence of its blocks *)

Section BlockFacts.
Context `{RT : Runtime} `{AF : Artifacts}.

Lemma predict_blocks ctx data s :
  predict ctx data s =
  (v ← lift (verdict data);
   dispatch_alert ctx data (final_label v.1.1 v.2) v.1.2;;
   save ctx data v.1.1 v.1.2 (final_label v.1.1 v.2)) s.
Proof.
  unfold predict, verdict, save, row_of.
  unfold_binds.
  destruct (build_vector data) as [X|]; [|done].
  destruct (scaler_transform X) as [Xs|]; [|done].
  destruct (model_predict Xs) as [raw|]; [|done].
  destruct (model_decision_function Xs) as [score|]; [|done].
  destruct (threshold_trigger data) as [trig|]; [|done]. simpl.
  destruct (dispatch_alert _ _ _ _ _) as [[[]|] s1]; [|done].
  destruct (get_db ctx s1) as [[[]|] s2]; [|done].
  destruct (coordinate data "latitude") as [lat|]; [|done].
  destruct (coordinate data "longitude") as [lon|]; [|done].
  by destruct (features_dict data) as [feats|].
Qed.
End BlockFacts.

(** ** The alert never touches the database *)

Lemma email_exn_Exception e : is_Exception (email_exn e) = true.
Proof. by destruct e. Qed.

(** The runs of [send_email_alert] with both credentials set: one for each
    step that can raise. *)
Ltac send_email_alert_runs ctx :=
  unfold msg_as_string; unfold_binds;
  destruct (MIMEText_error _) as [?|]; simpl;
  try (match goal with |- context [as_string ?m] => destruct (as_string m) as [?|?] end);
  simpl;
  destruct (smtp ctx) as [[?|] [?|] [?|] [?|] [?|]]; simpl;
  rewrite ?email_exn_Exception.

Section SendFacts.
Context `{RT : Runtime}.

Lemma send_email_alert_frame ctx subject message to_email s :
  db (world_of (send_email_alert ctx subject message to_email s).2) = db (world_of s) ∧
  g_db (send_email_alert ctx subject message to_email s).2 = g_db s.
Proof.
  unfold send_email_alert, try_except_Exception, print, fault.
  destruct (negb _ || negb _); [done |].
  send_email_alert_runs ctx;
    repeat (match goal with |- context [is_Exception ?e] => destruct (is_Exception e) end);
    done.
Qed.

Lemma send_email_alert_Ok ctx subject message to_email s :
  only_Exception (smtp ctx) →
  (send_email_alert ctx subject message to_email s).1 = Ok tt.
Proof.
  unfold only_Exception, raised_by, send_email_alert, try_except_Exception, print, fault.
  destruct (negb _ || negb _); [done |].
  send_email_alert_runs ctx;
    rewrite ?Forall_cons; intros; destruct_and?;
    repeat (match goal with Hx : is_Exception _ = true |- _ => rewrite Hx; clear Hx end);
    done.
Qed.
End SendFacts.

Section AlertFacts.
Context `{RT : Runtime} `{AF : Artifacts}.

Lemma dispatch_alert_frame ctx data final_label score s :
  db (world_of (dispatch_alert ctx data final_label score s).2) = db (world_of s) ∧
  g_db (dispatch_alert ctx data final_label score s).2 = g_db s.
Proof.
  unfold dispatch_alert. destruct (ALERT_EMAIL _) as [to_email|]; [|done].
  destruct (truthy_env _); [|done].
  unfold_binds.
  destruct (py_get data "latitude"); [|done].
  destruct (py_get data "longitude"); [|done].
  apply send_email_alert_frame.
Qed.

Lemma dispatch_alert_Ok ctx d final_label score s :
  only_Exception (smtp ctx) →
  (dispatch_alert ctx (PDict d) final_label score s).1 = Ok tt.
Proof.
  intros Hx. unfold dispatch_alert. destruct (ALERT_EMAIL _) as [to_email|]; [|done].
  destruct (truthy_env _); [|done].
  unfold py_get. unfold_binds.
  by apply send_email_alert_Ok.
Qed.
End AlertFacts.

(** ** What a request leaves behind *)

Section Served.
Context `{RT : Runtime} `{AF : Artifacts}.

Lemma save_run ctx data raw_pred score final_label s :
  g_db s = None →
  ∃ g, save ctx data raw_pred score final_label s =
       match stored ctx data raw_pred score final_label (db (world_of s)) with
       | Ok t' =>
           (Ok (Prediction.mk true final_label raw_pred score),
            ReqState (World t' (outbox (world_of s)) (stdout (world_of s))) (Some t'))
       | Raise e => (Raise e, set_g_db g s)
       end.
Proof.
  intros Hg. unfold save, stored, get_db, db_insert, db_commit, raise_if.
  unfold_binds. rewrite Hg.
  destruct s as [w g]; simpl in *; subst g.
  destruct (sqlite_connect _); [by exists None |].
  destruct (row_of _ _ _ _ _) as [r|]; simpl; [|by eexists].
  destruct (sqlite_execute _); [by eexists |].
  destruct (insert_row r (db w)) as [t'|]; [|by eexists].
  destruct (sqlite_commit _); [by eexists |].
  by exists None.
Qed.

(** [POST /predict], block by block. *)
Lemma serve_predict ctx data w :
  serve (predict ctx data) w =
  match verdict data with
  | Raise e => (failed e, w)
  | Ok (raw_pred, score, trigger) =>
      let final_label := final_label raw_pred trigger in
      let a := dispatch_alert ctx data final_label score (ReqState w None) in
      let w1 := World (db w) (outbox (world_of a.2)) (stdout (world_of a.2)) in
      match a.1 with
      | Raise e => (failed e, w1)
      | Ok _ =>
          match stored ctx data raw_pred score final_label (db w) with
          | Raise e => (failed e, w1)
          | Ok t' =>
              (Responded 200 (Some (Prediction.mk true final_label raw_pred score)),
               World t' (outbox w1) (stdout w1))
          end
      end
  end.
Proof.
  unfold serve. rewrite predict_blocks.
  rewrite handler_bind_unfold. unfold lift at 1.
  destruct (verdict data) as [[[raw_pred score] trigger]|e]; simpl; [|done].
  rewrite handler_bind_unfold.
  pose proof (dispatch_alert_frame ctx data (final_label raw_pred trigger) score
                (ReqState w None)) as [Hdb Hg].
  destruct (dispatch_alert _ _ _ _ _) as [[[]|e] [w1 g1]]; simpl in *; subst g1.
  - destruct (save_run ctx data raw_pred score (final_label raw_pred trigger)
                (ReqState w1 None) eq_refl) as [g ->]. simpl. rewrite Hdb.
    destruct (stored _ _ _ _ _ _); [done |].
    unfold close_db. simpl. rewrite <- Hdb. by destruct w1.
  - unfold close_db. simpl. rewrite <- Hdb. by destruct w1.
Qed.

(** [GET /history] *)
Lemma serve_history ctx w :
  serve (history ctx) w =
  match raise_if (sqlite_connect (sqlite ctx));; raise_if (sqlite_execute (sqlite ctx));;
        mapM history_item (select_recent (db w)) with
  | Raise e => (failed e, w)
  | Ok items => (Responded 200 (Some items), w)
  end.
Proof.
  unfold serve, history, get_db, db_select_recent, raise_if.
  unfold_binds. simpl.
  destruct (sqlite_connect _); [done |]. simpl.
  destruct (sqlite_execute _); [done |].
  by destruct (mapM _ _).
Qed.

Lemma serve_init_db ctx w : (serve (init_db ctx) w).2 = w.
Proof.
  unfold serve, init_db, get_db, db_commit, fault.
  unfold_binds. simpl.
  destruct (sqlite_connect _); [done |]. simpl.
  destruct (sqlite_execute _); [done |].
  destruct (sqlite_commit _); [done |]. by destruct w.
Qed.
End Served.

(** ** The decision: thresholds and labels *)

Section DecisionFacts.
Context `{RT : Runtime}.

Lemma thresholds_keys : critical_thresholds.*1 = features_order.
Proof. reflexivity. Qed.



Lemma feature_value_Exception data f e :
  feature_value data f = Raise e → is_Exception e = true.
Proof.
  unfold feature_value, py_getitem, py_float, float_of_int.
  intros Hr. destruct data; simpl in Hr; simplify_eq; try done.
  destruct (d !! f) as [v|]; simpl in Hr; simplify_eq; [|done].
  destruct v; simpl in Hr; repeat case_match; by simplify_eq.
Qed.

Lemma build_vector_features data X f :
  build_vector data = Ok X → f ∈ features_order → is_Ok (feature_value data f).
Proof. intros HX Hf. by eapply mapM_Ok_elem. Qed.

Lemma build_vector_dict data X : build_vector data = Ok X → ∃ d, data = PDict d.
Proof.
  intros HX.
  destruct (build_vector_features data X "Total Natural Discharges" HX) as [x Hx].
  { unfold features_order. set_solver. }
  destruct data; try done. by eexists.
Qed.




End DecisionFacts.

(** ** The table: row ids and the newest rows *)

#[global] Instance id_desc_total : Total id_desc.
Proof. intros a b. unfold id_desc. lia. Qed.

#[global] Instance id_desc_trans : Transitive id_desc.
Proof. intros a b c. unfold id_desc. lia. Qed.

#[global] Instance id_gt_antisymm : AntiSymm (=) id_gt.
Proof. intros a b. unfold id_gt. lia. Qed.

Lemma foldr_max_ge (l : list Z) x : x ∈ l → x ≤ foldr Z.max 0 l.
Proof.
  induction l as [|y l IH]; [by inv 1 |]. simpl. inv 1; [lia |].
  specialize (IH ltac:(done)). lia.
Qed.

Lemma max_rowid_ge (rs : gmap Z Row.t) k r : rs !! k = Some r → k ≤ max_rowid rs.
Proof.
  intros Hk. apply foldr_max_ge, list_elem_of_fmap. exists (k, r).
  split; [done |]. by apply elem_of_map_to_list.
Qed.

Lemma insert_row_Ok r t t' :
  insert_row r t = Ok t' →
  ∃ id, t' = Table (<[id := r]> (rows t)) id ∧ rows t !! id = None ∧
        (∀ k r', rows t !! k = Some r' → k < id) ∧ seq t < id.
Proof.
  unfold insert_row, next_rowid. case_match; [done |]. simpl. intros [= <-].
  eexists. split; [done |].
  assert (∀ k r', rows t !! k = Some r' → k < Z.max (seq t) (max_rowid (rows t)) + 1)
    as Hlt by (intros k r' Hk%max_rowid_ge; lia).
  split; [|split; [done | lia]].
  destruct (rows t !! _) as [r'|] eqn:Hk; [|done].
  apply Hlt in Hk. lia.
Qed.

(** Sorted by descending id, with distinct ids: strictly descending. *)
Lemma desc_NoDup_strict (l : list (Z * Row.t)) :
  StronglySorted id_desc l → NoDup l.*1 → StronglySorted id_gt l.
Proof.
  induction 1 as [|a l Hl IH Ha]; simpl; [constructor |].
  intros [Hnotin Hnd]%NoDup_cons. constructor; [by apply IH |].
  apply Forall_forall. intros b Hb.
  pose proof (proj1 (Forall_forall _ _) Ha b Hb) as Hle.
  unfold id_desc in Hle. unfold id_gt.
  assert (b.1 ≠ a.1); [|lia].
  intros Heq. apply Hnotin. rewrite <- Heq. by apply list_elem_of_fmap_2.
Qed.

Lemma sorted_rows_strict (m : gmap Z Row.t) :
  StronglySorted id_gt (merge_sort id_desc (map_to_list m)).
Proof.
  apply desc_NoDup_strict; [apply StronglySorted_merge_sort; apply _ |].
  rewrite merge_sort_Permutation. apply NoDup_fst_map_to_list.
Qed.

(** A row with an id above all others is the first of the sorted rows. *)
Lemma sorted_rows_insert_top (m : gmap Z Row.t) id r :
  (∀ k r', m !! k = Some r' → k < id) →
  merge_sort id_desc (map_to_list (<[id := r]> m))
  = (id, r) :: merge_sort id_desc (map_to_list m).
Proof.
  intros Htop.
  assert (m !! id = None) as Hfresh.
  { destruct (m !! id) as [r'|] eqn:Hk; [|done]. apply Htop in Hk. lia. }
  apply (StronglySorted_unique id_gt); [apply sorted_rows_strict | |].
  - constructor; [apply sorted_rows_strict |].
    apply Forall_forall. intros [k r'] Hin.
    rewrite merge_sort_Permutation in Hin. apply elem_of_map_to_list in Hin.
    unfold id_gt. simpl. by eapply Htop.
  - rewrite !merge_sort_Permutation. by apply map_to_list_insert.
Qed.

Lemma StronglySorted_take {A} (R : relation A) n l :
  StronglySorted R l → StronglySorted R (take n l).
Proof.
  intros Hl. rewrite <- (take_drop n l) in Hl. by apply StronglySorted_app_1_l in Hl.
Qed.

Lemma StronglySorted_adjacent {A} (R : relation A) l i a b :
  StronglySorted R l → l !! i = Some a → l !! S i = Some b → R a b.
Proof.
  intros Hl. revert i. induction Hl as [|x l Hl IH Hx]; intros i; [done |].
  destruct i as [|i]; simpl.
  - intros [= ->] Hb. eapply Forall_forall; [done |]. by eapply list_elem_of_lookup_2.
  - apply IH.
Qed.

Lemma select_recent_length t : (length (select_recent t) ≤ 100)%nat.
Proof. unfold select_recent. rewrite length_take. lia. Qed.

Lemma select_recent_strict t : StronglySorted id_gt (select_recent t).
Proof. apply StronglySorted_take, sorted_rows_strict. Qed.

Lemma select_recent_elem t k r : (k, r) ∈ select_recent t → rows t !! k = Some r.
Proof.
  unfold select_recent. intros Hin%subseteq_take.
  rewrite merge_sort_Permutation in Hin. by apply elem_of_map_to_list.
Qed.

Lemma select_recent_insert_top (m : gmap Z Row.t) id r s :
  (∀ k r', m !! k = Some r' → k < id) →
  select_recent (Table (<[id := r]> m) s) = (id, r) :: take 99 (merge_sort id_desc (map_to_list m)).
Proof.
  intros Htop. unfold select_recent. simpl. by rewrite sorted_rows_insert_top.
Qed.

Lemma mapM_take {A B} (f : A → result B) l k n :
  mapM f l = Ok k → mapM f (take n l) = Ok (take n k).
Proof. rewrite !mapM_Ok. apply Forall2_take. Qed.

Lemma mapM_length {A B} (f : A → result B) l k : mapM f l = Ok k → length k = length l.
Proof. intros Hk%mapM_Ok. symmetry. by eapply Forall2_length. Qed.

(** ** The row a request builds *)

Section RowFacts.
Context `{RT : Runtime} `{AF : Artifacts}.

Lemma serve_predict_200 ctx data w p w' :
  serve (predict ctx data) w = (Responded 200 (Some p), w') →
  ∃ raw_pred score trigger,
    verdict data = Ok (raw_pred, score, trigger) ∧
    p = Prediction.mk true (final_label raw_pred trigger) raw_pred score ∧
    ∃ t', stored ctx data raw_pred score (final_label raw_pred trigger) (db w) = Ok t' ∧
          db w' = t'.
Proof.
  rewrite serve_predict. unfold failed.
  destruct (verdict data) as [[[raw_pred score] trigger]|e]; simpl;
    [|case_match; naive_solver].
  destruct (dispatch_alert _ _ _ _ _).1; [|case_match; naive_solver].
  destruct (stored _ _ _ _ _ _) as [t'|e] eqn:Hst; [|case_match; naive_solver].
  intros [= <- <-]. exists raw_pred, score, trigger.
  split; [done |]. split; [done |]. by exists t'.
Qed.

Lemma verdict_Ok data raw_pred score trigger :
  verdict data = Ok (raw_pred, score, trigger) →
  ∃ X X_scaled,
    build_vector data = Ok X ∧ scaler_transform X = Ok X_scaled ∧
    model_predict X_scaled = Ok raw_pred ∧
    model_decision_function X_scaled = Ok score ∧
    threshold_trigger data = Ok trigger.
Proof.
  unfold verdict.
  intros (X & HX & (Xs & HXs & (r & Hr & (s & Hs & (t & Ht & [= <- <- <-])
    %result_bind_Ok)%result_bind_Ok)%result_bind_Ok)%result_bind_Ok)%result_bind_Ok.
  by exists X, Xs.
Qed.

Lemma coordinate_dict d k :
  coordinate (PDict d) k =
  match d !! k with
  | Some v => if truthy v then x ← py_float v; Ok (Some x) else Ok None
  | None => Ok None
  end.
Proof.
  unfold coordinate, py_get, py_getitem. unfold_binds.
  by destruct (d !! k) as [v|].
Qed.

Lemma foldl_insert_lookup (d : gmap string pyval) kvs (m0 : gmap string pyval) k :
  (∀ kv, kv ∈ kvs → d !! kv.1 = Some kv.2) →
  foldl (λ m kv, <[kv.1 := kv.2]> m) m0 kvs !! k
  = if bool_decide (k ∈ kvs.*1) then d !! k else m0 !! k.
Proof.
  revert m0. induction kvs as [|[k0 v0] kvs IH]; intros m0 Hd; simpl; [done |].
  rewrite IH by (intros; apply Hd; by right).
  destruct (decide (k ∈ kvs.*1)) as [Hin|Hin].
  - rewrite !bool_decide_eq_true_2; [done | by right | done].
  - rewrite (bool_decide_eq_false_2 _ Hin).
    destruct (decide (k = k0)) as [->|Hne].
    + rewrite bool_decide_eq_true_2 by left. rewrite lookup_insert_eq.
      symmetry. apply (Hd (k0, v0)). left.
    + rewrite bool_decide_eq_false_2 by (by intros [?|?]%elem_of_cons).
      by rewrite lookup_insert_ne.
Qed.

Lemma getitem_pairs d fs kvs :
  Forall2 (λ f kv, (v ← py_getitem (PDict d) f; Ok (f, v)) = Ok kv) fs kvs →
  kvs.*1 = fs ∧ ∀ kv, kv ∈ kvs → d !! kv.1 = Some kv.2.
Proof.
  induction 1 as [|f kv fs kvs Hf Hrest IH]; [split; [done | by inv 1] |].
  destruct IH as [IH1 IH2].
  apply result_bind_Ok in Hf as (v & Hv & [= <-]). simpl in Hv.
  destruct (d !! f) as [v'|] eqn:Hdf; simplify_eq. split; [done |].
  intros kv. inv 1; [done | by apply IH2].
Qed.

(** The features object of a payload: the nine canonical names, each with
    the value submitted under it, and nothing else. *)
Lemma features_dict_Ok data feats :
  features_dict data = Ok feats →
  ∃ d d', data = PDict d ∧ feats = PDict d' ∧
          ∀ k, d' !! k = if bool_decide (k ∈ features_order) then d !! k else None.
Proof.
  unfold features_dict. intros (kvs & Hkvs%mapM_Ok & [= <-])%result_bind_Ok.
  assert (∃ d, data = PDict d) as [d ->].
  { inv Hkvs as [|? ? ? ? Hg _]. destruct data; try done. by eexists. }
  exists d, (foldl (λ m kv, <[kv.1 := kv.2]> m) ∅ kvs). split; [done |]. split; [done |].
  destruct (getitem_pairs d _ _ Hkvs) as [Hk Hv].
  intros k. rewrite (foldl_insert_lookup d) by done. rewrite Hk.
  case_bool_decide; [done | apply lookup_empty].
Qed.

Lemma row_of_Ok ctx data raw_pred score final_label r :
  row_of ctx data raw_pred score final_label = Ok r →
  ∃ latitude longitude features,
    coordinate data "latitude" = Ok latitude ∧
    coordinate data "longitude" = Ok longitude ∧
    features_dict data = Ok features ∧
    r = Row.mk (Some (now ctx)) None None (bind_real latitude) (bind_real longitude)
               (Some (json_dumps features)) (Some raw_pred) (bind_real (Some score))
               (Some final_label).
Proof.
  unfold row_of.
  intros (lat & Hlat & (lon & Hlon & (feats & Hf & [= <-])
    %result_bind_Ok)%result_bind_Ok)%result_bind_Ok.
  by exists lat, lon, feats.
Qed.

Lemma stored_Ok ctx data raw_pred score final_label t t' :
  stored ctx data raw_pred score final_label t = Ok t' →
  ∃ r, row_of ctx data raw_pred score final_label = Ok r ∧ insert_row r t = Ok t'.
Proof.
  unfold stored, raise_if.
  destruct (sqlite_connect _); [done |]. simpl.
  destruct (row_of _ _ _ _ _) as [r|]; [|done]. simpl.
  destruct (sqlite_execute _); [done |]. simpl.
  destruct (insert_row r t) as [t1|] eqn:Hins; [|done]. simpl.
  destruct (sqlite_commit _); [done |]. simpl.
  intros [= <-]. by exists r.
Qed.

(** The table after [POST /predict]: as it was, or with one more row. *)
Lemma serve_predict_db ctx data w :
  db (serve (predict ctx data) w).2 = db w ∨
  ∃ r t', insert_row r (db w) = Ok t' ∧ db (serve (predict ctx data) w).2 = t'.
Proof.
  rewrite serve_predict.
  destruct (verdict data) as [[[raw score] trig]|e]; [|by left]. cbv zeta.
  destruct (dispatch_alert _ _ _ _ _).1; [|by left].
  destruct (stored _ _ _ _ _ _) as [t'|e] eqn:Hst; [|by left].
  apply stored_Ok in Hst as (r & _ & Hins). right. by exists r, t'.
Qed.

Lemma serve_predict_fails_db ctx data w :
  (∀ p, (serve (predict ctx data) w).1 ≠ Responded 200 (Some p)) →
  db (serve (predict ctx data) w).2 = db w.
Proof.
  rewrite serve_predict.
  destruct (verdict data) as [[[raw score] trig]|e]; [|done]. cbv zeta.
  destruct (dispatch_alert _ _ _ _ _).1; [|done].
  destruct (stored _ _ _ _ _ _) as [t'|e] eqn:Hst; [|done].
  intros Hno. by destruct (Hno _ eq_refl).
Qed.

(** A successful [POST /predict], in full. *)
Lemma serve_predict_200_row ctx data w p w' :
  serve (predict ctx data) w = (Responded 200 (Some p), w') →
  ∃ id r raw_pred score trigger latitude longitude features,
    verdict data = Ok (raw_pred, score, trigger) ∧
    p = Prediction.mk true (final_label raw_pred trigger) raw_pred score ∧
    coordinate data "latitude" = Ok latitude ∧
    coordinate data "longitude" = Ok longitude ∧
    features_dict data = Ok features ∧
    r = Row.mk (Some (now ctx)) None None (bind_real latitude) (bind_real longitude)
               (Some (json_dumps features)) (Some raw_pred) (bind_real (Some score))
               (Some (final_label raw_pred trigger)) ∧
    db w' = Table (<[id := r]> (rows (db w))) id ∧
    rows (db w) !! id = None ∧
    (∀ k r', rows (db w) !! k = Some r' → k < id) ∧
    seq (db w) < id.
Proof.
  intros (raw & score & trig & Hv & -> & t' & Hst & Hdb)%serve_predict_200.
  apply stored_Ok in Hst as (r & Hr & Hins).
  apply row_of_Ok in Hr as (lat & lon & feats & Hlat & Hlon & Hf & ->).
  apply insert_row_Ok in Hins as (id & -> & Hfresh & Htop & Hseq).
  eexists id, _, raw, score, trig, lat, lon, feats. by repeat split.
Qed.

(** No request removes or rewrites a row. *)
Lemma step_keeps_row w cr id r :
  rows (db w) !! id = Some r → rows (db (step w cr)) !! id = Some r.
Proof.
  intros Hr. destruct cr as [ctx [|data| |]]; unfold step; simpl.
  - done.
  - destruct (serve_predict_db ctx data w) as [-> | (r' & t' & Hins & ->)]; [done |].
    apply insert_row_Ok in Hins as (id' & -> & Hfresh & _). simpl.
    rewrite lookup_insert_ne; [done | congruence].
  - by rewrite serve_history; destruct (_ ;; _).
  - by rewrite serve_init_db.
Qed.

Lemma run_keeps_row w reqs id r :
  rows (db w) !! id = Some r → rows (db (run w reqs)) !! id = Some r.
Proof.
  unfold run. revert w. induction reqs as [|cr reqs IH]; intros w Hr; [done |].
  simpl. by apply IH, step_keeps_row.
Qed.
Lemma features_dict_submitted data features :
  features_dict data = Ok features → submitted_features data features.
Proof.
  intros Hf. pose proof Hf as (d & d' & -> & -> & Hd')%features_dict_Ok.
  exists d'. split; [done |]. split.
  - intros f Hin. specialize (Hd' f). rewrite bool_decide_eq_true_2 in Hd' by done.
    unfold features_dict in Hf.
    apply result_bind_Ok in Hf as (kvs & Hkvs & _).
    destruct (mapM_Ok_elem _ _ _ f Hkvs Hin) as [kv (v & Hv & _)%result_bind_Ok].
    exists v. split; [done |]. simpl in Hv. rewrite Hd'.
    by destruct (d !! f); simplify_eq.
  - intros k Hk. specialize (Hd' k). by rewrite bool_decide_eq_false_2 in Hd'.
Qed.

Lemma coordinate_Ok_rule data k c :
  coordinate data k = Ok c → coordinate_rule data k (bind_real c).
Proof.
  intros Hc. assert (∃ d, data = PDict d) as [d ->].
  { unfold coordinate, py_get in Hc. destruct data; try done. by eexists. }
  rewrite coordinate_dict in Hc. exists d. split; [done |].
  destruct (d !! k) as [v|]; [|by simplify_eq].
  split; [done |]. split.
  - intros ? [= <-] Hv _. rewrite Hv in Hc. by simplify_eq.
  - intros ? [= <-] Hv. rewrite Hv in Hc.
    apply result_bind_Ok in Hc as (x & Hx & [= <-]). by exists x.
Qed.

(** The conditions under which the alert of a request leaves, and the
    message that leaves. *)
Lemma send_email_alert_sent ctx subject message to_email s sender password :
  EMAIL_SENDER (env ctx) = Some sender → sender ≠ "" →
  EMAIL_PASSWORD (env ctx) = Some password → password ≠ "" →
  raised_by (smtp ctx) = [] →
  accepted (Email sender to_email subject message) = true →
  send_email_alert ctx subject message to_email s =
  (Ok tt,
   add_line ("Email sent successfully to " +:+ to_email)
     (add_mail (Email sender to_email subject message) s)).
Proof.
  intros Hs Hs' Hp Hp' Hsm Hacc.
  unfold send_email_alert, truthy_env, try_except_Exception, fault, print, msg_as_string.
  rewrite Hs, Hp.
  apply String.eqb_neq in Hs', Hp'. rewrite Hs', Hp'. simpl.
  unfold accepted in Hacc. simpl in Hacc. unfold_binds. unfold raised_by in Hsm.
  destruct (MIMEText_error message); [done |]. simpl.
  destruct (as_string _); [done |].
  by destruct (smtp ctx) as [[?|] [?|] [?|] [?|] [?|]].
Qed.

Lemma dispatch_alert_sent ctx d final_label score s to_email sender password :
  ALERT_EMAIL (env ctx) = Some to_email → to_email ≠ "" →
  EMAIL_SENDER (env ctx) = Some sender → sender ≠ "" →
  EMAIL_PASSWORD (env ctx) = Some password → password ≠ "" →
  raised_by (smtp ctx) = [] →
  accepted (Email sender to_email (alert_subject final_label)
              (alert_message (default PNone (d !! "latitude"))
                 (default PNone (d !! "longitude")) final_label score)) = true →
  dispatch_alert ctx (PDict d) final_label score s =
  (Ok tt,
   add_line ("Email sent successfully to " +:+ to_email)
     (add_mail (Email sender to_email (alert_subject final_label)
                  (alert_message (default PNone (d !! "latitude"))
                     (default PNone (d !! "longitude")) final_label score)) s)).
Proof.
  intros Hto Hto' Hs Hs' Hp Hp' Hsm Hacc.
  unfold dispatch_alert, truthy_env. rewrite Hto.
  apply String.eqb_neq in Hto'. rewrite Hto'. simpl.
  unfold py_get. unfold_binds.
  by apply (send_email_alert_sent ctx _ _ to_email s sender password).
Qed.

(** ** What [GET /history] returns *)

Lemma history_item_Ok kr it :
  history_item kr = Ok it →
  Item.id it = kr.1 ∧ Item.label it = label_on_read kr.2 ∧
  loads_column (Row.features_json kr.2) = Ok (Item.features it).
Proof.
  unfold history_item. intros (feats & Hf & [= <-])%result_bind_Ok. by simpl.
Qed.

Lemma serve_history_200 ctx w items w' :
  serve (history ctx) w = (Responded 200 (Some items), w') →
  w' = w ∧ sqlite_connect (sqlite ctx) = None ∧ sqlite_execute (sqlite ctx) = None ∧
  mapM history_item (select_recent (db w)) = Ok items.
Proof.
  rewrite serve_history. unfold raise_if, failed.
  destruct (sqlite_connect _); simpl; [case_match; naive_solver |].
  destruct (sqlite_execute _); simpl; [case_match; naive_solver |].
  destruct (mapM _ _); [|case_match; naive_solver].
  by intros [= <- <-].
Qed.

Lemma history_rows ctx w items w' i it :
  serve (history ctx) w = (Responded 200 (Some items), w') →
  items !! i = Some it →
  ∃ r, select_recent (db w) !! i = Some (Item.id it, r) ∧
       rows (db w) !! Item.id it = Some r ∧
       Item.label it = label_on_read r ∧
       loads_column (Row.features_json r) = Ok (Item.features it).
Proof.
  intros (_ & _ & _ & Hm%mapM_Ok)%serve_history_200 Hi.
  destruct (Forall2_lookup_r _ _ _ _ _ Hm Hi) as ([k r] & Hkr & Hit).
  apply history_item_Ok in Hit as (Hid & Hl & Hf). simpl in *. subst k.
  exists r. split; [done |]. split; [|done].
  apply select_recent_elem. by eapply list_elem_of_lookup_2.
Qed.
End RowFacts.

(** ** What a request adds to the outbox and to the console *)

Section SendGrowth.
Context `{RT : Runtime}.

(** The message leaves exactly when both credentials are set, the [email]
    package takes it, and the session gets through [sendmail]. *)
Lemma send_email_alert_leaves ctx subject message to_email s :
  outbox (world_of (send_email_alert ctx subject message to_email s).2) =
  outbox (world_of s) ++
  let msg := Email (default "" (EMAIL_SENDER (env ctx))) to_email subject message in
  if credentials_set ctx && accepted msg && reaches_sendmail (smtp ctx)
  then [msg] else [].
Proof.
  unfold send_email_alert, credentials_set, accepted, reaches_sendmail,
    try_except_Exception, print, fault.
  destruct (truthy_env (EMAIL_SENDER _)), (truthy_env (EMAIL_PASSWORD _)); simpl;
    rewrite ?app_nil_r; try done.
  send_email_alert_runs ctx;
    repeat (match goal with |- context [is_Exception ?e] => destruct (is_Exception e) end);
    simpl; by rewrite ?app_nil_r.
Qed.

Lemma send_email_alert_outbox ctx subject message to_email s :
  outbox (world_of (send_email_alert ctx subject message to_email s).2)
  = outbox (world_of s) ∨
  credentials_set ctx = true ∧
  outbox (world_of (send_email_alert ctx subject message to_email s).2)
  = outbox (world_of s)
    ++ [Email (default "" (EMAIL_SENDER (env ctx))) to_email subject message].
Proof.
  rewrite send_email_alert_leaves. cbv zeta.
  destruct (credentials_set ctx); simpl; [|left; by rewrite app_nil_r].
  destruct (accepted _ && _); [by right | left; by rewrite app_nil_r].
Qed.

Lemma send_email_alert_stdout ctx subject message to_email s :
  stdout (world_of s)
  `prefix_of` stdout (world_of (send_email_alert ctx subject message to_email s).2).
Proof.
  unfold send_email_alert, try_except_Exception, print, fault.
  destruct (negb _ || negb _); [by apply prefix_app_r |].
  send_email_alert_runs ctx;
    repeat (match goal with |- context [is_Exception ?e] => destruct (is_Exception e) end);
    simpl; first [done | by apply prefix_app_r].
Qed.
End SendGrowth.

Section GrowthFacts.
Context `{RT : Runtime} `{AF : Artifacts}.

Lemma dispatch_alert_outbox ctx data final_label score s :
  outbox (world_of (dispatch_alert ctx data final_label score s).2)
  = outbox (world_of s) ∨
  ∃ to_email lat lon,
    ALERT_EMAIL (env ctx) = Some to_email ∧ credentials_set ctx = true ∧
    py_get data "latitude" = Ok lat ∧ py_get data "longitude" = Ok lon ∧
    outbox (world_of (dispatch_alert ctx data final_label score s).2)
    = outbox (world_of s)
      ++ [Email (default "" (EMAIL_SENDER (env ctx))) to_email
            (alert_subject final_label) (alert_message lat lon final_label score)].
Proof.
  unfold dispatch_alert. destruct (ALERT_EMAIL _) as [to_email|]; [|by left].
  destruct (truthy_env _); [|by left].
  unfold_binds.
  destruct (py_get data "latitude") as [lat|]; [|by left].
  destruct (py_get data "longitude") as [lon|]; [|by left].
  destruct (send_email_alert_outbox ctx (alert_subject final_label)
              (alert_message lat lon final_label score) to_email s) as [Hsame | [Hc Hsent]];
    [by left | right].
  by exists to_email, lat, lon.
Qed.

Lemma dispatch_alert_stdout ctx data final_label score s :
  stdout (world_of s)
  `prefix_of` stdout (world_of (dispatch_alert ctx data final_label score s).2).
Proof.
  unfold dispatch_alert. destruct (ALERT_EMAIL _) as [to_email|]; [|done].
  destruct (truthy_env _); [|done].
  unfold_binds.
  destruct (py_get data "latitude") as [lat|]; [|done].
  destruct (py_get data "longitude") as [lon|]; [|done].
  apply send_email_alert_stdout.
Qed.

(** Outbox and console after [POST /predict] are those the alert left. *)
Lemma serve_predict_outbox ctx data w :
  outbox (serve (predict ctx data) w).2 =
  match verdict data with
  | Ok (raw_pred, score, trigger) =>
      outbox (world_of (dispatch_alert ctx data (final_label raw_pred trigger) score
                          (ReqState w None)).2)
  | Raise _ => outbox w
  end.
Proof.
  rewrite serve_predict.
  destruct (verdict data) as [[[raw score] trig]|e]; [|done]. cbv zeta.
  destruct (dispatch_alert _ _ _ _ _).1; [|done].
  by destruct (stored _ _ _ _ _ _).
Qed.

Lemma serve_predict_stdout ctx data w :
  stdout (serve (predict ctx data) w).2 =
  match verdict data with
  | Ok (raw_pred, score, trigger) =>
      stdout (world_of (dispatch_alert ctx data (final_label raw_pred trigger) score
                          (ReqState w None)).2)
  | Raise _ => stdout w
  end.
Proof.
  rewrite serve_predict.
  destruct (verdict data) as [[[raw score] trig]|e]; [|done]. cbv zeta.
  destruct (dispatch_alert _ _ _ _ _).1; [|done].
  by destruct (stored _ _ _ _ _ _).
Qed.

Lemma serve_history_world ctx w : (serve (history ctx) w).2 = w.
Proof. rewrite serve_history. by destruct (_ ;; _). Qed.

Lemma insert_row_seq r t t' : insert_row r t = Ok t' → seq t < seq t'.
Proof. intros (id & -> & _ & _ & Hseq)%insert_row_Ok. done. Qed.
End GrowthFacts.

(** ** Comprehensions over the feature names *)

Lemma mapM_ext_elem {A B} (f g : A → result B) l :
  (∀ x, x ∈ l → f x = g x) → mapM f l = mapM g l.
Proof.
  induction l as [|x l IH]; intros Hfg; [done |].
  rewrite !mapM_cons, (Hfg x), IH; [done | | left].
  intros y Hy. apply Hfg. by right.
Qed.

(** A comprehension raises what its first failing element raises. *)
Lemma mapM_first_Raise {A B} (f : A → result B) l i x e :
  l !! i = Some x →
  (∀ j y, (j < i)%nat → l !! j = Some y → is_Ok (f y)) →
  f x = Raise e → mapM f l = Raise e.
Proof.
  revert i. induction l as [|y l IH]; intros i Hi Hbefore Hx; [done |].
  rewrite mapM_cons. destruct i as [|i]; simpl in Hi.
  - injection Hi as ->. by rewrite Hx.
  - destruct (Hbefore 0%nat y) as [b ->]; [lia | done |]. simpl.
    rewrite (IH i Hi); [done | | done].
    intros j z Hj Hz. apply (Hbefore (S j) z); [lia | done].
Qed.

Section VectorFacts.
Context `{RT : Runtime}.

(** The second pass over the payload, at line 136, compares what the
    first pass, at line 130, put in the vector. *)
Lemma any_exceeds_of_vector data ths X :
  Forall2 (λ f x, feature_value data f = Ok x) ths.*1 X →
  any_exceeds data ths = Ok (existsb (λ xt, (xt.2 <? xt.1)%float) (zip X ths.*2)).
Proof.
  revert X. induction ths as [|[f t] ths IH]; intros X HX; simpl in *.
  - by inv HX.
  - inv HX as [|? x ? X' Hx HX']. rewrite Hx. simpl.
    destruct (t <? x)%float; [done |]. by apply IH.
Qed.

Lemma feature_value_ext (d1 d2 : gmap string pyval) f :
  d1 !! f = d2 !! f → feature_value (PDict d1) f = feature_value (PDict d2) f.
Proof. unfold feature_value, py_getitem. by intros ->. Qed.

Lemma any_exceeds_ext d1 d2 ths :
  (∀ f, f ∈ ths.*1 → d1 !! f = d2 !! f) →
  any_exceeds (PDict d1) ths = any_exceeds (PDict d2) ths.
Proof.
  induction ths as [|[f t] ths IH]; intros Heq; [done |]. simpl.
  rewrite (feature_value_ext d1 d2 f) by (apply Heq; left).
  destruct (feature_value (PDict d2) f) as [x|]; [|done]. simpl.
  destruct (t <? x)%float; [done |]. apply IH. intros g Hg. apply Heq. by right.
Qed.
End VectorFacts.

(** ** What [predict] reads of the payload and of the world *)

Section SendReads.
Context `{RT : Runtime}.

Lemma send_email_alert_result ctx subject message to_email s1 s2 :
  (send_email_alert ctx subject message to_email s1).1
  = (send_email_alert ctx subject message to_email s2).1.
Proof.
  unfold send_email_alert, try_except_Exception, print, fault.
  destruct (negb _ || negb _); [done |].
  send_email_alert_runs ctx;
    repeat (match goal with |- context [is_Exception ?e] => destruct (is_Exception e) end);
    done.
Qed.
End SendReads.

Section ReadFacts.
Context `{RT : Runtime} `{AF : Artifacts}.

Lemma dispatch_alert_result ctx data final_label score s1 s2 :
  (dispatch_alert ctx data final_label score s1).1
  = (dispatch_alert ctx data final_label score s2).1.
Proof.
  unfold dispatch_alert. destruct (ALERT_EMAIL _) as [to_email|]; [|done].
  destruct (truthy_env _); [|done].
  unfold_binds.
  destruct (py_get data "latitude") as [lat|]; [|done].
  destruct (py_get data "longitude") as [lon|]; [|done].
  apply send_email_alert_result.
Qed.

(** The block SAVE TO DB looks at the table only to take the next id. *)
Lemma stored_same_outcome ctx data raw_pred score final_label t1 t2 :
  is_Ok (next_rowid t1) → is_Ok (next_rowid t2) →
  match stored ctx data raw_pred score final_label t1,
        stored ctx data raw_pred score final_label t2 with
  | Ok _, Ok _ => True
  | Raise e1, Raise e2 => e1 = e2
  | _, _ => False
  end.
Proof.
  intros [i1 H1] [i2 H2]. unfold stored, raise_if, insert_row. rewrite H1, H2.
  destruct (sqlite_connect _); [done |]. simpl.
  destruct (row_of _ _ _ _ _) as [r|]; [|done]. simpl.
  destruct (sqlite_execute _); [done |]. simpl.
  by destruct (sqlite_commit _).
Qed.

Lemma verdict_ext d1 d2 :
  (∀ f, f ∈ features_order → d1 !! f = d2 !! f) →
  verdict (PDict d1) = verdict (PDict d2).
Proof.
  intros Heq. unfold verdict, build_vector, threshold_trigger.
  rewrite (mapM_ext_elem (feature_value (PDict d1)) (feature_value (PDict d2)))
    by (intros f Hf; by apply feature_value_ext, Heq).
  rewrite (any_exceeds_ext d1 d2 critical_thresholds); [done |].
  intros f Hf. apply Heq. by rewrite <- thresholds_keys.
Qed.

Lemma features_dict_ext d1 d2 :
  (∀ f, f ∈ features_order → d1 !! f = d2 !! f) →
  features_dict (PDict d1) = features_dict (PDict d2).
Proof.
  intros Heq. unfold features_dict.
  rewrite (mapM_ext_elem (λ f, v ← py_getitem (PDict d1) f; Ok (f, v))
             (λ f, v ← py_getitem (PDict d2) f; Ok (f, v))); [done |].
  intros f Hf. unfold py_getitem. by rewrite (Heq f Hf).
Qed.
End ReadFacts.

(** ** The columns [GET /history] copies *)

Section ColumnFacts.
Context `{RT : Runtime} `{AF : Artifacts}.

Lemma history_item_columns kr it :
  history_item kr = Ok it →
  Item.id it = kr.1 ∧
  Item.timestamp it = Row.timestamp kr.2 ∧
  Item.latitude it = Row.latitude kr.2 ∧
  Item.longitude it = Row.longitude kr.2 ∧
  Item.raw_prediction it = Row.raw_prediction kr.2 ∧
  Item.decision_score it = Row.decision_score kr.2 ∧
  Item.label it = label_on_read kr.2.
Proof.
  unfold history_item. intros (feats & Hf & [= <-])%result_bind_Ok. by simpl.
Qed.

Lemma label_on_read_final_label r raw_pred trigger :
  Row.label r = Some (final_label raw_pred trigger) →
  label_on_read r = final_label raw_pred trigger.
Proof.
  unfold label_on_read, final_label. intros ->. by destruct (_ || _).
Qed.
End ColumnFacts.

(** ** The rows [predict] writes *)

Section WrittenRows.
Context `{RT : Runtime} `{AF : Artifacts}.

Lemma row_of_well_labelled ctx data raw_pred score trigger r :
  row_of ctx data raw_pred score (final_label raw_pred trigger) = Ok r →
  well_labelled r.
Proof.
  intros (lat & lon & feats & _ & _ & _ & ->)%row_of_Ok.
  split; [done |]. split; [done |]. exists raw_pred. split; [done |]. simpl.
  unfold final_label.
  destruct (raw_pred =? -1) eqn:Hraw; simpl; [by left |].
  apply Z.eqb_neq in Hraw. destruct trigger; [by left | by right].
Qed.

(** The table after [POST /predict]: as it was, or with one more row,
    written as [row_of] builds it. *)
Lemma serve_predict_written ctx data w :
  db (serve (predict ctx data) w).2 = db w ∨
  ∃ id r, rows (db (serve (predict ctx data) w).2) = <[id := r]> (rows (db w)) ∧
          rows (db w) !! id = None ∧ well_labelled r.
Proof.
  rewrite serve_predict.
  destruct (verdict data) as [[[raw score] trig]|e]; [|by left]. cbv zeta.
  destruct (dispatch_alert _ _ _ _ _).1; [|by left].
  destruct (stored _ _ _ _ _ _) as [t'|e] eqn:Hst; [|by left].
  apply stored_Ok in Hst as (r & Hr & (id & -> & Hfresh & _)%insert_row_Ok).
  right. exists id, r. split; [done |]. split; [done |].
  by eapply row_of_well_labelled.
Qed.
End WrittenRows.

(** ** The text of the alert *)

Lemma append_cons c s t : String c s +:+ t = String c (s +:+ t).
Proof. done. Qed.

Lemma append_nil_l s : "" +:+ s = s.
Proof. done. Qed.

Lemma append_assoc s1 s2 s3 : (s1 +:+ s2) +:+ s3 = s1 +:+ (s2 +:+ s3).
Proof. induction s1 as [|c s1 IH]; [done |]. by rewrite !append_cons, IH. Qed.

Lemma rev_app_append s1 s2 acc :
  String.rev_app (s1 +:+ s2) acc = String.rev_app s2 (String.rev_app s1 acc).
Proof.
  revert acc. induction s1 as [|c s1 IH]; intros acc; [done |].
  rewrite append_cons. simpl. by rewrite IH.
Qed.

Lemma rev_app_rev_app s acc acc' :
  String.rev_app (String.rev_app s acc) acc' = String.rev_app acc (s +:+ acc').
Proof.
  revert acc acc'. induction s as [|c s IH]; intros acc acc'; [done |].
  simpl. by rewrite IH.
Qed.

(** [strip] takes from a text the white space around it, and no more: a
    text between two line feeds that begins and ends with a visible
    character comes out whole. *)
Lemma strip_between_LF a s c :
  is_space a = false → is_space c = false →
  strip (LF +:+ String a (s +:+ String c LF)) = String a (s +:+ String c "").
Proof.
  intros Ha Hc. unfold strip, LF, String.rev. rewrite append_cons, append_nil_l.
  simpl. rewrite Ha. simpl.
  rewrite rev_app_append. simpl. rewrite Hc. simpl.
  by rewrite (rev_app_rev_app s (String a "") (String c "")).
Qed.

Section AlertText.
Context `{RT : Runtime}.

(** The body of the alert, written out. *)
Lemma alert_message_text lat lon final_label score :
  ends_visible (py_str (PFloat score)) →
  alert_message lat lon final_label score =
  "Groundwater condition at (" +:+ py_str lat +:+ ", " +:+ py_str lon +:+ ") is "
    +:+ final_label +:+ "." +:+ LF +:+ "Decision Score: " +:+ py_str (PFloat score).
Proof.
  intros (s' & c & Hs & Hc). unfold alert_message. rewrite Hs.
  set (head := "roundwater condition at (" +:+ py_str lat +:+ ", " +:+ py_str lon
               +:+ ") is " +:+ final_label +:+ "." +:+ LF +:+ "Decision Score: " +:+ s').
  transitivity (String "G" (head +:+ String c "")).
  - rewrite <- (strip_between_LF "G" head c eq_refl Hc). f_equal. f_equal.
    unfold head. by rewrite ?append_assoc, ?append_cons, ?append_nil_l.
  - unfold head. by rewrite ?append_assoc, ?append_cons, ?append_nil_l.
Qed.
End AlertText.

(** ** The alert of a request *)

Section AlertLeaves.
Context `{RT : Runtime} `{AF : Artifacts}.

(** The alert block sends its one message exactly when a destination and
    both credentials are set, the [email] package takes the message, and
    the session gets through [sendmail]. *)
Lemma dispatch_alert_leaves ctx d final_label score s :
  outbox (world_of (dispatch_alert ctx (PDict d) final_label score s).2) =
  outbox (world_of s) ++
  let msg := Email (default "" (EMAIL_SENDER (env ctx)))
               (default "" (ALERT_EMAIL (env ctx))) (alert_subject final_label)
               (alert_message (default PNone (d !! "latitude"))
                  (default PNone (d !! "longitude")) final_label score) in
  if truthy_env (ALERT_EMAIL (env ctx)) && credentials_set ctx && accepted msg
     && reaches_sendmail (smtp ctx)
  then [msg] else [].
Proof.
  unfold dispatch_alert. destruct (ALERT_EMAIL _) as [to_email|]; simpl;
    [|by rewrite app_nil_r].
  destruct (negb _); simpl; [|by rewrite app_nil_r].
  unfold py_get. unfold_binds. apply send_email_alert_leaves.
Qed.

Lemma py_float_Exception v e : py_float v = Raise e → is_Exception e = true.
Proof.
  unfold py_float, float_of_int. destruct v; try by intros [= <-].
  - case_match; by intros [= <-].
  - case_match; by intros [= <-].
Qed.

Lemma coordinate_Exception d k e :
  coordinate (PDict d) k = Raise e → is_Exception e = true.
Proof.
  rewrite coordinate_dict. destruct (d !! k) as [v|]; [|done].
  destruct (truthy v); [|done].
  destruct (py_float v) as [x|e'] eqn:Hv; [done |].
  intros [= <-]. by eapply py_float_Exception.
Qed.

(** A coordinate that cannot be cast ends the request after the alert:
    the answer is 500, and the world is the one the alert block left. *)
Lemma serve_predict_coordinate_fails ctx d w raw_pred score trigger k e :
  verdict (PDict d) = Ok (raw_pred, score, trigger) →
  only_Exception (smtp ctx) → sqlite_connect (sqlite ctx) = None →
  k = "latitude" ∨ k = "longitude" → coordinate (PDict d) k = Raise e →
  serve (predict ctx (PDict d)) w =
  (Responded 500 None,
   (serve (dispatch_alert ctx (PDict d) (final_label raw_pred trigger) score) w).2).
Proof.
  intros Hv Hx Hc Hk He. rewrite serve_predict, Hv. cbv zeta.
  pose proof (dispatch_alert_Ok ctx d (final_label raw_pred trigger) score
                (ReqState w None) Hx) as Hok.
  pose proof (dispatch_alert_frame ctx (PDict d) (final_label raw_pred trigger) score
                (ReqState w None)) as [Hdb Hg].
  unfold serve.
  destruct (dispatch_alert _ _ _ _ _) as [r [w1 g1]]. simpl in *. subst r g1.
  assert (∃ e', stored ctx (PDict d) raw_pred score (final_label raw_pred trigger) (db w)
                = Raise e' ∧ is_Exception e' = true) as (e' & -> & He').
  { unfold stored, row_of, raise_if. rewrite Hc. simpl.
    destruct Hk as [-> | ->].
    - rewrite He. simpl. eexists. split; [done |]. by eapply coordinate_Exception.
    - destruct (coordinate (PDict d) "latitude") as [lat|e'] eqn:Hlat; simpl.
      + rewrite He. simpl. eexists. split; [done |]. by eapply coordinate_Exception.
      + eexists. split; [done |]. by eapply coordinate_Exception. }
  unfold failed, close_db. rewrite He'. simpl. rewrite <- Hdb. by destruct w1.
Qed.
End AlertLeaves.

(** * The claims *)

Section Claims.
Context `{RT : Runtime} `{AF : Artifacts}.


(** C2 (amended). When a required feature field is missing from the
    payload or is not castable to a float, [POST /predict] answers with
    status 500, the server goes on, and the world is as it was: no row
    is written, no mail is sent. *)
Theorem invalid_payload_answers_500 ctx data w f e :
  f ∈ features_order → feature_value data f = Raise e →
  serve (predict ctx data) w = (Responded 500 None, w).
Proof.
  intros Hf He. rewrite serve_predict.
  destruct (mapM_Raise_elem (feature_value data) features_order f e Hf He)
    as (e' & f' & HX & _ & He').
  unfold verdict. fold (build_vector data) in HX. rewrite HX. simpl.
  unfold failed. by rewrite (feature_value_Exception data f' e' He').
Qed.

(** C3. Whatever the mail session does (no credentials, refused
    connection, failed login, rejected message, delivery) and whether or
    not a destination is configured, [send_email_alert] returns to its
    caller without raising and leaves the database and the connection as
    they were, and [POST /predict] gives the same answer and leaves the
    same table: two contexts that differ only in the environment variables
    and in the mail session's failures are not told apart. *)
Theorem alert_outcome_is_invisible ctx1 ctx2 data w :
  only_Exception (smtp ctx1) → only_Exception (smtp ctx2) →
  sqlite ctx1 = sqlite ctx2 → now ctx1 = now ctx2 →
  (∀ subject message to_email s,
     ∃ s', send_email_alert ctx1 subject message to_email s = (Ok tt, s') ∧
           db (world_of s') = db (world_of s) ∧ g_db s' = g_db s) ∧
  (serve (predict ctx1 data) w).1 = (serve (predict ctx2 data) w).1 ∧
  db (serve (predict ctx1 data) w).2 = db (serve (predict ctx2 data) w).2.
Proof.
  intros Hx1 Hx2 Hsql Hnow. split.
  { intros subject message to_email s.
    pose proof (send_email_alert_Ok ctx1 subject message to_email s Hx1) as Hok.
    pose proof (send_email_alert_frame ctx1 subject message to_email s) as [Hdb Hg].
    destruct (send_email_alert _ _ _ _ _) as [r s']. simpl in *. subst r. by exists s'. }
  rewrite !serve_predict.
  destruct (verdict data) as [[[raw score] trig]|e] eqn:Hv; [|done].
  destruct (verdict_Ok _ _ _ _ Hv) as (X & _ & [d ->]%build_vector_dict & _).
  cbv zeta.
  rewrite (dispatch_alert_Ok ctx1 d _ _ _ Hx1), (dispatch_alert_Ok ctx2 d _ _ _ Hx2).
  assert (stored ctx1 (PDict d) raw score (final_label raw trig) (db w)
          = stored ctx2 (PDict d) raw score (final_label raw trig) (db w)) as ->.
  { unfold stored, row_of. by rewrite Hsql, Hnow. }
  by destruct (stored _ _ _ _ _ _).
Qed.

(** C4. Whatever the table holds, a [GET /history] that answers returns at
    most 100 records, each with an id strictly greater than the id of the
    record after it; and it does answer when the database raises nothing
    and the [features_json] of every row is read by [json.loads]. *)
Theorem history_at_most_100_descending ctx w :
  (∀ items w', serve (history ctx) w = (Responded 200 (Some items), w') →
     (length items ≤ 100)%nat ∧
     ∀ i a b, items !! i = Some a → items !! S i = Some b → Item.id b < Item.id a) ∧
  (sqlite_connect (sqlite ctx) = None → sqlite_execute (sqlite ctx) = None →
   (∀ id r, rows (db w) !! id = Some r → is_Ok (loads_column (Row.features_json r))) →
   ∃ items, serve (history ctx) w = (Responded 200 (Some items), w)).
Proof.
  split.
  - intros items w' Hh. split.
    + destruct (serve_history_200 _ _ _ _ Hh) as (_ & _ & _ & Hm).
      rewrite (mapM_length _ _ _ Hm). apply select_recent_length.
    + intros i a b Ha Hb.
      destruct (history_rows _ _ _ _ _ _ Hh Ha) as (ra & Hia & _).
      destruct (history_rows _ _ _ _ _ _ Hh Hb) as (rb & Hib & _).
      apply (StronglySorted_adjacent id_gt _ _ _ _ (select_recent_strict (db w)) Hia Hib).
  - intros Hc He Hload. rewrite serve_history, Hc, He. simpl.
    destruct (mapM_is_Ok history_item (select_recent (db w))) as [items ->]; [|by eexists].
    intros [k r] Hin%select_recent_elem. unfold history_item. simpl.
    destruct (Hload k r Hin) as [feats ->]. by eexists.
Qed.

(** C5 (amended). A record that [GET /history] returns whose stored label
    is null, or the empty string, carries the label derived from its raw
    verdict: ["CRITICAL"] when the verdict is -1, ["SAFE"] otherwise; a
    record whose stored label is a string that is not empty carries that
    label unchanged. *)
Theorem history_label_on_read ctx w items w' it :
  serve (history ctx) w = (Responded 200 (Some items), w') → it ∈ items →
  ∃ r, rows (db w) !! Item.id it = Some r ∧
       (Row.label r = None ∨ Row.label r = Some "" →
        Item.label it = if bool_decide (Row.raw_prediction r = Some (-1))
                        then "CRITICAL" else "SAFE") ∧
       (∀ l, Row.label r = Some l → l ≠ "" → Item.label it = l).
Proof.
  intros Hh [i Hi]%list_elem_of_lookup.
  destruct (history_rows _ _ _ _ _ _ Hh Hi) as (r & _ & Hr & Hl & _).
  exists r. split; [done |]. rewrite Hl. unfold label_on_read. split.
  - by intros [-> | ->].
  - intros l -> Hne. by apply String.eqb_neq in Hne as ->.
Qed.

(** C6 (amended). In the record a successful [POST /predict] persists,
    latitude (and likewise longitude) is null when the payload has no such
    field, and when the field holds a value without truth (null, the empty
    string, an empty list) that is not castable to a float; when the field
    holds a value with truth that is castable, the record holds its float
    (the engine holds a NaN as NULL and a negative zero as 0.0). A field
    that holds a value with truth that is not castable makes the request
    fail: it gets no 200 and the table is left as it was; and when the
    verdict was reached, the mail session raised nothing outside
    [Exception] and the database was opened, the answer is 500 and the
    world is the one the alert block left, with the mail of the alert in
    the outbox if it was sent. *)
Theorem coordinates_persisted ctx data w :
  (∀ p w', serve (predict ctx data) w = (Responded 200 (Some p), w') →
     ∃ id r, rows (db w') = <[id := r]> (rows (db w)) ∧ rows (db w) !! id = None ∧
             coordinate_rule data "latitude" (Row.latitude r) ∧
             coordinate_rule data "longitude" (Row.longitude r)) ∧
  (∀ d k v e, data = PDict d → k = "latitude" ∨ k = "longitude" →
     d !! k = Some v → truthy v = true → py_float v = Raise e →
     (∀ p, (serve (predict ctx data) w).1 ≠ Responded 200 (Some p)) ∧
     db (serve (predict ctx data) w).2 = db w ∧
     (∀ raw_pred score trigger msg,
        verdict data = Ok (raw_pred, score, trigger) →
        only_Exception (smtp ctx) → sqlite_connect (sqlite ctx) = None →
        msg = Email (default "" (EMAIL_SENDER (env ctx)))
                (default "" (ALERT_EMAIL (env ctx)))
                (alert_subject (final_label raw_pred trigger))
                (alert_message (default PNone (d !! "latitude"))
                   (default PNone (d !! "longitude")) (final_label raw_pred trigger)
                   score) →
        serve (predict ctx data) w =
        (Responded 500 None,
         (serve (dispatch_alert ctx data (final_label raw_pred trigger) score) w).2) ∧
        outbox (serve (predict ctx data) w).2 =
        outbox w ++
          if truthy_env (ALERT_EMAIL (env ctx)) && credentials_set ctx && accepted msg
             && reaches_sendmail (smtp ctx)
          then [msg] else [])).
Proof.
  split.
  - intros p w' (id & r & raw & score & trig & lat & lon & feats & _ & _ & Hlat
                 & Hlon & _ & -> & -> & Hfresh & _)%serve_predict_200_row.
    eexists id, _. simpl. split; [done |]. split; [done |].
    split; by apply coordinate_Ok_rule.
  - intros d k v e -> Hk Hv Ht He.
    assert (coordinate (PDict d) k = Raise e) as Hco.
    { by rewrite coordinate_dict, Hv, Ht, He. }
    assert (∀ p, (serve (predict ctx (PDict d)) w).1 ≠ Responded 200 (Some p)) as Hno.
    { intros p Hp.
      destruct (serve (predict ctx (PDict d)) w) as [o w'] eqn:Hs. simpl in Hp. subst o.
      apply serve_predict_200_row in Hs
        as (_ & _ & _ & _ & _ & lat & lon & _ & _ & _ & Hlat & Hlon & _).
      destruct Hk as [-> | ->]; congruence. }
    split; [done |]. split; [by apply serve_predict_fails_db |].
    intros raw_pred score trigger msg Hverdict Hx Hc ->.
    rewrite (serve_predict_coordinate_fails ctx d w raw_pred score trigger k e) by done.
    split; [done |]. unfold serve.
    pose proof (dispatch_alert_leaves ctx d (final_label raw_pred trigger) score
                  (ReqState w None)) as Hout.
    by destruct (dispatch_alert _ _ _ _ _) as [[[]|?] [w1 g1]].
Qed.

(** C7. After a successful [POST /predict], when [json.loads] reads back
    what [json.dumps] wrote for the features of the request: the record
    has a new id, [GET /history] returns it first, and from then on every
    [GET /history] that returns the record of that id returns, as its
    features, an object with exactly the nine canonical names, each with
    the value submitted under it. *)
Theorem features_round_trip ctx data w p w' :
  serve (predict ctx data) w = (Responded 200 (Some p), w') →
  (∀ features, features_dict data = Ok features →
               json_loads (json_dumps features) = Ok features) →
  ∃ id features,
    rows (db w) !! id = None ∧
    submitted_features data features ∧
    (∀ ctx' items w'',
       serve (history ctx') w' = (Responded 200 (Some items), w'') →
       ∃ it, items !! 0%nat = Some it ∧ Item.id it = id ∧ Item.features it = features) ∧
    (∀ reqs ctx' items w'' it,
       serve (history ctx') (run w' reqs) = (Responded 200 (Some items), w'') →
       it ∈ items → Item.id it = id → Item.features it = features).
Proof.
  intros (id & r & raw & score & trig & lat & lon & feats & _ & _ & _ & _ & Hf
          & Hr & Hdb & Hfresh & Htop & _)%serve_predict_200_row Hjson.
  exists id, feats. split; [done |]. split; [by apply features_dict_submitted |].
  assert (rows (db w') !! id = Some r) as Hrow.
  { rewrite Hdb. simpl. apply lookup_insert_eq. }
  assert (loads_column (Row.features_json r) = Ok feats) as Hload.
  { rewrite Hr. simpl. by apply Hjson. }
  split.
  - intros ctx' items w'' Hh.
    pose proof Hh as (_ & _ & _ & Hm)%serve_history_200.
    rewrite Hdb, select_recent_insert_top in Hm by done.
    simpl in Hm. apply result_bind_Ok in Hm as (it & Hit & (k & _ & [= <-])%result_bind_Ok).
    exists it. split; [done |].
    apply history_item_Ok in Hit as (Hid & _ & Hfe). simpl in *.
    split; [done |]. congruence.
  - intros reqs ctx' items w'' it Hh [i Hi]%list_elem_of_lookup Hid.
    destruct (history_rows _ _ _ _ _ _ Hh Hi) as (r' & _ & Hr' & _ & Hfe).
    rewrite Hid, (run_keeps_row w' reqs id r Hrow) in Hr'. simplify_eq. congruence.
Qed.

(** C8. A successful [POST /predict] adds exactly one record to the table,
    under an id strictly greater than the id of every record the table
    holds or ever held; no later request changes or removes that record;
    and, when [GET /history] answered before and the features of the new
    record are read back by [json.loads], [GET /history] answers after,
    with one more record, up to the cap of 100. *)
Theorem predict_appends_one_record ctx data w p w' :
  serve (predict ctx data) w = (Responded 200 (Some p), w') →
  ∃ id r,
    rows (db w') = <[id := r]> (rows (db w)) ∧
    rows (db w) !! id = None ∧
    (∀ k r', rows (db w) !! k = Some r' → k < id) ∧
    seq (db w) < id ∧
    (∀ reqs, rows (db (run w' reqs)) !! id = Some r) ∧
    (∀ ctx' items,
       serve (history ctx') w = (Responded 200 (Some items), w) →
       is_Ok (loads_column (Row.features_json r)) →
       ∃ items', serve (history ctx') w' = (Responded 200 (Some items'), w') ∧
                 length items' = Nat.min 100 (S (length items))).
Proof.
  intros (id & r & raw & score & trig & lat & lon & feats & _ & _ & _ & _ & _
          & Hr & Hdb & Hfresh & Htop & Hseq)%serve_predict_200_row.
  exists id, r. split; [by rewrite Hdb |]. do 3 (split; [done |]). split.
  - intros reqs. apply run_keeps_row. rewrite Hdb. simpl. apply lookup_insert_eq.
  - intros ctx' items (_ & Hc & He & Hm)%serve_history_200 [feats' Hload].
    destruct (history_item (id, r)) as [it0|e] eqn:Hit.
    2:{ unfold history_item in Hit. cbn [snd] in Hit. by rewrite Hload in Hit. }
    unfold select_recent in Hm. apply (mapM_take _ _ _ 99) in Hm.
    rewrite take_take in Hm. replace (99 `min` 100)%nat with 99%nat in Hm by lia.
    exists (it0 :: take 99 items). split.
    + rewrite serve_history, Hc, He, Hdb, select_recent_insert_top by done.
      cbn [raise_if mbind result_bind]. rewrite mapM_cons, Hit.
      cbn [mbind result_bind]. by rewrite Hm.
    + rewrite length_cons, length_take. lia.
Qed.

(** C9. In the record a successful [POST /predict] persists, latitude
    (and likewise longitude) is null whenever the payload value has no
    truth; the number 0, integer or float, is such a value although it is
    castable, and so are the empty string and null. *)
Theorem falsy_coordinate_persisted_as_null ctx data w p w' :
  serve (predict ctx data) w = (Responded 200 (Some p), w') →
  ∃ id r,
    rows (db w') = <[id := r]> (rows (db w)) ∧ rows (db w) !! id = None ∧
    (∀ v, py_get data "latitude" = Ok v → truthy v = false → Row.latitude r = None) ∧
    (∀ v, py_get data "longitude" = Ok v → truthy v = false → Row.longitude r = None) ∧
    (truthy (PInt 0) = false ∧ py_float (PInt 0) = Ok 0%float) ∧
    (truthy (PFloat 0) = false ∧ py_float (PFloat 0) = Ok 0%float) ∧
    truthy (PStr "") = false ∧ truthy PNone = false.
Proof.
  intros (id & r & raw & score & trig & lat & lon & feats & _ & _ & Hlat & Hlon
          & _ & -> & -> & Hfresh & _)%serve_predict_200_row.
  eexists id, _. simpl. do 2 (split; [done |]).
  unfold coordinate in Hlat, Hlon.
  split; [|split].
  - intros v Hv Ht. rewrite Hv in Hlat. simpl in Hlat. rewrite Ht in Hlat. by simplify_eq.
  - intros v Hv Ht. rewrite Hv in Hlon. simpl in Hlon. rewrite Ht in Hlon. by simplify_eq.
  - by vm_compute.
Qed.

(** C10. The alert leaves before the insert. When the verdict is reached,
    a destination and the sender's credentials are configured, the [email]
    package takes the message, the mail session raises nothing, and the
    block SAVE TO DB raises an exception, the request is answered with
    status 500 and the table is as it was, while the mail has been sent:
    its subject names the label, and its body the coordinates submitted,
    the label and the decision score. *)
Theorem alert_precedes_failed_insert ctx d w raw_pred score trigger to_email sender
    password e msg :
  verdict (PDict d) = Ok (raw_pred, score, trigger) →
  ALERT_EMAIL (env ctx) = Some to_email → to_email ≠ "" →
  EMAIL_SENDER (env ctx) = Some sender → sender ≠ "" →
  EMAIL_PASSWORD (env ctx) = Some password → password ≠ "" →
  ends_visible (py_str (PFloat score)) →
  msg = Email sender to_email
          ("Groundwater Alert: " +:+ final_label raw_pred trigger)
          ("Groundwater condition at (" +:+ py_str (default PNone (d !! "latitude"))
             +:+ ", " +:+ py_str (default PNone (d !! "longitude")) +:+ ") is "
             +:+ final_label raw_pred trigger +:+ "." +:+ LF
             +:+ "Decision Score: " +:+ py_str (PFloat score)) →
  accepted msg = true →
  raised_by (smtp ctx) = [] →
  stored ctx (PDict d) raw_pred score (final_label raw_pred trigger) (db w) = Raise e →
  is_Exception e = true →
  serve (predict ctx (PDict d)) w =
  (Responded 500 None,
   World (db w) (outbox w ++ [msg])
     (stdout w ++ ["Email sent successfully to " +:+ to_email])).
Proof.
  intros Hv Hto Hto' Hs Hs' Hp Hp' Hvis -> Hacc Hsm Hst He.
  rewrite <- (alert_message_text _ _ _ _ Hvis) in Hacc |- *.
  rewrite serve_predict, Hv. cbv zeta.
  rewrite (dispatch_alert_sent ctx d _ _ _ to_email sender password) by done.
  simpl. rewrite Hst. unfold failed. by rewrite He.
Qed.

End Claims.

(** * Further properties of the handlers *)

Section Further.
Context `{RT : Runtime} `{AF : Artifacts}.

(** X1. [send_email_alert] hands exactly one message to the mail server
    when both credentials are set, the [email] package builds the message
    and writes it out, and connect, starttls, login and sendmail raise
    nothing; in every other case it hands over none. The message is from
    [EMAIL_SENDER], to the given address, with the given subject and
    body. What [quit] does afterwards does not matter. *)
Theorem send_email_alert_delivery ctx subject message to_email s :
  outbox (world_of (send_email_alert ctx subject message to_email s).2) =
  if credentials_set ctx
     && accepted (Email (default "" (EMAIL_SENDER (env ctx))) to_email subject message)
     && reaches_sendmail (smtp ctx)
  then outbox (world_of s)
       ++ [Email (default "" (EMAIL_SENDER (env ctx))) to_email subject message]
  else outbox (world_of s).
Proof.
  rewrite send_email_alert_leaves. cbv zeta.
  destruct (_ && _ && _); [done | by rewrite app_nil_r].
Qed.

(** X2. When the mail session raises nothing but exceptions of class
    [Exception], [send_email_alert] returns normally and prints exactly
    one line: the error line when a credential is missing; the success
    line when the message was built, the session went through and the
    message was written out; and otherwise the failure line with the
    message of the first exception raised, be it the [email] package's or
    the session's. *)
Theorem send_email_alert_logs_one_line ctx subject message to_email s :
  only_Exception (smtp ctx) →
  (send_email_alert ctx subject message to_email s).1 = Ok tt ∧
  stdout (world_of (send_email_alert ctx subject message to_email s).2)
  = stdout (world_of s) ++ [logged_line ctx subject message to_email].
Proof.
  unfold only_Exception, raised_by, logged_line, raised_in, send_email_alert,
    credentials_set, try_except_Exception, print, fault.
  destruct (truthy_env (EMAIL_SENDER _)), (truthy_env (EMAIL_PASSWORD _)); simpl;
    try done.
  send_email_alert_runs ctx;
    rewrite ?Forall_cons; intros; destruct_and?;
    repeat (match goal with Hx : is_Exception _ = true |- _ => rewrite Hx; clear Hx end);
    done.
Qed.

(** X3. When the message has been handed over and only [quit] fails, the
    mail has left and yet the console reports a failure, not a success. *)
Theorem quit_failure_reported_after_delivery ctx subject message to_email s e :
  credentials_set ctx = true →
  accepted (Email (default "" (EMAIL_SENDER (env ctx))) to_email subject message) = true →
  reaches_sendmail (smtp ctx) = true →
  smtp_quit (smtp ctx) = Some e → is_Exception e = true →
  send_email_alert ctx subject message to_email s
  = (Ok tt,
     add_line ("Email sending failed: " +:+ exn_msg e)
       (add_mail (Email (default "" (EMAIL_SENDER (env ctx))) to_email subject message) s)).
Proof.
  unfold send_email_alert, credentials_set, accepted, reaches_sendmail,
    try_except_Exception, print, fault.
  intros Hc Ha Hs Hq He.
  destruct (truthy_env (EMAIL_SENDER _)), (truthy_env (EMAIL_PASSWORD _)); try done.
  simpl in *. send_email_alert_runs ctx; try done. simpl in *. simplify_eq.
  by rewrite He.
Qed.

(** X4. Without a destination ([ALERT_EMAIL] unset or empty) [POST /predict]
    sends no mail and prints nothing, whatever the payload, the mail
    server and the database do. *)
Theorem no_destination_no_alert ctx data w :
  truthy_env (ALERT_EMAIL (env ctx)) = false →
  outbox (serve (predict ctx data) w).2 = outbox w ∧
  stdout (serve (predict ctx data) w).2 = stdout w.
Proof.
  intros Hoff. rewrite serve_predict.
  destruct (verdict data) as [[[raw score] trig]|e]; [|done]. cbv zeta.
  assert (dispatch_alert ctx data (final_label raw trig) score (ReqState w None)
          = (Ok tt, ReqState w None)) as ->.
  { unfold dispatch_alert. destruct (ALERT_EMAIL _) as [to_email|]; [|done].
    by rewrite Hoff. }
  simpl. by destruct (stored _ _ _ _ _ _).
Qed.

(** X5. Every request that reaches a verdict sends its alert under the
    same conditions, for "SAFE" as for "CRITICAL" and whether or not the
    record is then saved: one mail leaves when a destination and both
    credentials are set, the [email] package takes the message and the
    session gets through [sendmail], and none otherwise. The subject is
    "Groundwater Alert: " followed by the label; the body gives the two
    coordinates as submitted, the label and the decision score. *)
Theorem alert_sent_for_every_label ctx d w raw_pred score trigger msg :
  verdict (PDict d) = Ok (raw_pred, score, trigger) →
  ends_visible (py_str (PFloat score)) →
  msg = Email (default "" (EMAIL_SENDER (env ctx))) (default "" (ALERT_EMAIL (env ctx)))
          ("Groundwater Alert: " +:+ final_label raw_pred trigger)
          ("Groundwater condition at (" +:+ py_str (default PNone (d !! "latitude"))
             +:+ ", " +:+ py_str (default PNone (d !! "longitude")) +:+ ") is "
             +:+ final_label raw_pred trigger +:+ "." +:+ LF
             +:+ "Decision Score: " +:+ py_str (PFloat score)) →
  outbox (serve (predict ctx (PDict d)) w).2 =
  outbox w ++
    if truthy_env (ALERT_EMAIL (env ctx)) && credentials_set ctx && accepted msg
       && reaches_sendmail (smtp ctx)
    then [msg] else [].
Proof.
  intros Hv Hvis ->. rewrite <- (alert_message_text _ _ _ _ Hvis).
  rewrite serve_predict_outbox, Hv.
  apply (dispatch_alert_leaves ctx d (final_label raw_pred trigger) score
           (ReqState w None)).
Qed.
(** X6. [POST /predict] changes the table exactly when it answers 200, and
    then by one row; in every other case, whichever step failed, the table
    is as it was. *)
Theorem table_changes_only_on_200 ctx data w :
  (∃ p, (serve (predict ctx data) w).1 = Responded 200 (Some p) ∧
        size (rows (db (serve (predict ctx data) w).2)) = S (size (rows (db w)))) ∨
  ((∀ p, (serve (predict ctx data) w).1 ≠ Responded 200 (Some p)) ∧
   db (serve (predict ctx data) w).2 = db w).
Proof.
  assert (∀ e, ∀ p, @failed Prediction.t e ≠ Responded 200 (Some p)) as Hfailed.
  { intros e p. unfold failed. by destruct (is_Exception e). }
  rewrite serve_predict.
  destruct (verdict data) as [[[raw score] trig]|e];
    [|right; split; [intros p; apply Hfailed | done]]. cbv zeta.
  destruct (dispatch_alert _ _ _ _ _).1;
    [|right; split; [intros p; apply Hfailed | done]].
  destruct (stored _ _ _ _ _ _) as [t'|e] eqn:Hst;
    [|right; split; [intros p; apply Hfailed | done]].
  left. eexists. split; [done |]. simpl.
  apply stored_Ok in Hst as (r & _ & (id & -> & Hfresh & _)%insert_row_Ok).
  simpl. by apply map_size_insert_None.
Qed.
(** X7. A row that was inserted but whose commit raised is not in the
    table: the connection is closed at the end of the request and the
    open transaction is lost. The request gets no 200. *)
Theorem uncommitted_insert_is_lost ctx data w e :
  sqlite_commit (sqlite ctx) = Some e →
  db (serve (predict ctx data) w).2 = db w ∧
  ∀ p, (serve (predict ctx data) w).1 ≠ Responded 200 (Some p).
Proof.
  intros Hcommit.
  assert (∀ p, (serve (predict ctx data) w).1 ≠ Responded 200 (Some p)) as Hno.
  { intros p Hp.
    destruct (serve (predict ctx data) w) as [o w'] eqn:Hs. simpl in Hp. subst o.
    apply serve_predict_200 in Hs as (raw & score & trig & _ & _ & t' & Hst & _).
    unfold stored, raise_if in Hst. rewrite Hcommit in Hst.
    destruct (sqlite_connect _); [done |]. simpl in Hst.
    destruct (row_of _ _ _ _ _) as [r|]; [|done]. simpl in Hst.
    destruct (sqlite_execute _); [done |]. simpl in Hst.
    by destruct (insert_row r (db w)). }
  split; [by apply serve_predict_fails_db | done].
Qed.

(** X8. The two routes that read change nothing: after [GET /history]
    and after [GET /] the table, the outbox and the console are as they
    were, whether the request was answered or failed; and so they are
    after any sequence of such requests. *)
Theorem reads_leave_no_trace ctx w :
  (serve (history ctx) w).2 = w ∧
  (serve index w).2 = w ∧
  ∀ reqs, Forall (λ cr, cr.2 = GetHistory ∨ cr.2 = GetIndex) reqs → run w reqs = w.
Proof.
  split; [apply serve_history_world |]. split; [by destruct w |].
  intros reqs Hreads. unfold run.
  induction Hreads as [|[ctx' req] reqs [Hreq | Hreq] _ IH]; [done | |];
    simpl in *; subst req; unfold step; simpl.
  - by rewrite serve_history_world.
  - by destruct w.
Qed.

(** X9. The world only grows. After any sequence of requests every row the
    table held is still there, unchanged, the sequence counter of the
    table has not gone down, and the outbox and the console begin with
    what they held. *)
Theorem world_only_grows w reqs :
  rows (db w) ⊆ rows (db (run w reqs)) ∧
  seq (db w) ≤ seq (db (run w reqs)) ∧
  outbox w `prefix_of` outbox (run w reqs) ∧
  stdout w `prefix_of` stdout (run w reqs).
Proof.
  unfold run. revert w. induction reqs as [|[ctx req] reqs IH]; intros w; [done |].
  simpl. destruct (IH (step w (ctx, req))) as (Hrows & Hseq & Hout & Herr).
  assert (rows (db w) ⊆ rows (db (step w (ctx, req))) ∧
          seq (db w) ≤ seq (db (step w (ctx, req))) ∧
          outbox w `prefix_of` outbox (step w (ctx, req)) ∧
          stdout w `prefix_of` stdout (step w (ctx, req))) as (Hrows1 & Hseq1 & Hout1 & Herr1).
  { split.
    { apply map_subseteq_spec. intros id r Hr. by apply step_keeps_row. }
    destruct req as [|data| |]; unfold step; simpl.
    - by destruct w.
    - split; [|split].
      + destruct (serve_predict_db ctx data w) as [-> | (r & t' & Hins & ->)]; [done |].
        apply insert_row_seq in Hins. lia.
      + rewrite serve_predict_outbox.
        destruct (verdict data) as [[[raw score] trig]|e]; [|done].
        destruct (dispatch_alert_outbox ctx data (final_label raw trig) score
                    (ReqState w None)) as [-> | (? & ? & ? & _ & _ & _ & _ & ->)];
          [done | by apply prefix_app_r].
      + rewrite serve_predict_stdout.
        destruct (verdict data) as [[[raw score] trig]|e]; [|done].
        apply (dispatch_alert_stdout ctx data _ _ (ReqState w None)).
    - by rewrite serve_history_world.
    - by rewrite serve_init_db. }
  split; [by etrans |]. split; [lia |]. split; by etrans.
Qed.

(** X10. A request sends at most one mail, and only [POST /predict] sends
    any: a mail that left went to the address in [ALERT_EMAIL], was sent
    with both credentials set, after a verdict was reached, and carries
    the label of that verdict in its subject. *)
Theorem at_most_one_mail_per_request w ctx req :
  outbox (step w (ctx, req)) = outbox w ∨
  ∃ data raw_pred score trigger m,
    req = PostPredict data ∧
    verdict data = Ok (raw_pred, score, trigger) ∧
    outbox (step w (ctx, req)) = outbox w ++ [m] ∧
    ALERT_EMAIL (env ctx) = Some (mail_to m) ∧
    credentials_set ctx = true ∧
    mail_subject m = "Groundwater Alert: " +:+ final_label raw_pred trigger.
Proof.
  destruct req as [|data| |]; unfold step; simpl.
  - left. by destruct w.
  - rewrite serve_predict_outbox.
    destruct (verdict data) as [[[raw score] trig]|e] eqn:Hv; [|by left].
    destruct (dispatch_alert_outbox ctx data (final_label raw trig) score
                (ReqState w None)) as [-> | (to_email & lat & lon & Hto & Hc & _ & _ & ->)];
      [by left | right].
    by eexists data, raw, score, trig, _.
  - left. by rewrite serve_history_world.
  - left. by rewrite serve_init_db.
Qed.

(** X11. Within a request the connection is opened once: a second
    [get_db] finds the connection of the first and does not connect
    again, so it cannot fail where the first succeeded. *)
Theorem get_db_reuses_connection ctx ctx' s :
  (get_db ctx;; get_db ctx') s = get_db ctx s.
Proof.
  unfold get_db. unfold_binds.
  destruct (g_db s) as [t|] eqn:Hg; [by rewrite Hg |].
  by destruct (sqlite_connect (sqlite ctx)).
Qed.
(** X12. The vector the model is given has nine entries, and its i-th
    entry is the float of the field with the i-th canonical name; the
    order of the fields in the payload plays no part. *)
Theorem build_vector_shape data X :
  build_vector data = Ok X →
  length X = 9%nat ∧
  ∀ i f, features_order !! i = Some f →
         ∃ x, X !! i = Some x ∧ feature_value data f = Ok x.
Proof.
  intros HX%mapM_Ok. split.
  - by rewrite <- (Forall2_length _ _ _ HX).
  - intros i f Hf. destruct (Forall2_lookup_l _ _ _ _ _ HX Hf) as (x & Hx & Hfx).
    by exists x.
Qed.

(** X13. Once the vector is built, the threshold check cannot raise, and
    its flag is the comparison of the vector with the thresholds, entry
    by entry in the canonical order: the flag is set exactly when some
    entry is above the threshold at the same position. *)
Theorem threshold_trigger_of_vector data X :
  build_vector data = Ok X →
  threshold_trigger data
  = Ok (existsb (λ xt, (xt.2 <? xt.1)%float) (zip X critical_thresholds.*2)).
Proof.
  intros HX%mapM_Ok. apply any_exceeds_of_vector. by rewrite thresholds_keys.
Qed.
(** X14. [POST /predict] reads the nine feature fields, [latitude] and
    [longitude], and nothing else of the payload: two payloads that agree
    on these eleven fields get the same answer and leave the same world,
    whatever other fields they carry. *)
Theorem unknown_fields_are_ignored ctx (d1 d2 : gmap string pyval) w :
  (∀ k, k ∈ features_order ++ ["latitude"; "longitude"] → d1 !! k = d2 !! k) →
  serve (predict ctx (PDict d1)) w = serve (predict ctx (PDict d2)) w.
Proof.
  intros Heq.
  assert (∀ f, f ∈ features_order → d1 !! f = d2 !! f) as Hfeat.
  { intros f Hf. apply Heq, elem_of_app. by left. }
  assert (d1 !! "latitude" = d2 !! "latitude") as Hlat.
  { apply Heq, elem_of_app. right. set_solver. }
  assert (d1 !! "longitude" = d2 !! "longitude") as Hlon.
  { apply Heq, elem_of_app. right. set_solver. }
  rewrite !serve_predict, (verdict_ext d1 d2 Hfeat).
  destruct (verdict (PDict d2)) as [[[raw score] trig]|e]; [|done]. cbv zeta.
  assert (∀ l s, dispatch_alert ctx (PDict d1) l score s
                 = dispatch_alert ctx (PDict d2) l score s) as ->.
  { intros l s. unfold dispatch_alert, py_get. by rewrite Hlat, Hlon. }
  assert (∀ l t, stored ctx (PDict d1) raw score l t
                 = stored ctx (PDict d2) raw score l t) as ->; [|done].
  intros l t. unfold stored, row_of.
  by rewrite !coordinate_dict, Hlat, Hlon, (features_dict_ext d1 d2 Hfeat).
Qed.

(** X15. When several feature fields are missing or not castable, the
    exception that ends the request is the one of the first such field in
    the canonical order of the features. *)
Theorem first_invalid_field_is_raised data i f e :
  features_order !! i = Some f →
  (∀ j g, (j < i)%nat → features_order !! j = Some g → is_Ok (feature_value data g)) →
  feature_value data f = Raise e →
  build_vector data = Raise e.
Proof. intros Hi Hbefore He. by eapply mapM_first_Raise. Qed.

(** X16. The answer of [POST /predict] does not depend on what the table,
    the outbox or the console hold: in two worlds whose tables both have
    an id left to give, the same request in the same context gets the
    same answer. *)
Theorem answer_independent_of_world ctx data w1 w2 :
  is_Ok (next_rowid (db w1)) → is_Ok (next_rowid (db w2)) →
  (serve (predict ctx data) w1).1 = (serve (predict ctx data) w2).1.
Proof.
  intros H1 H2. rewrite !serve_predict.
  destruct (verdict data) as [[[raw score] trig]|e]; [|done]. cbv zeta.
  rewrite (dispatch_alert_result ctx data (final_label raw trig) score
             (ReqState w1 None) (ReqState w2 None)).
  destruct (dispatch_alert _ _ _ _ _).1; [|done].
  pose proof (stored_same_outcome ctx data raw score (final_label raw trig)
                (db w1) (db w2) H1 H2) as Hst.
  destruct (stored _ _ _ _ _ (db w1)), (stored _ _ _ _ _ (db w2)); try done.
  by subst.
Qed.
(** X17. What [GET /history] returns are the newest records: as many as
    the table has rows, up to 100; each with the timestamp, coordinates,
    raw verdict and score of the row of its id, unchanged; and every row
    that is not returned has an id below the ids of all that are. *)
Theorem history_returns_newest ctx w items w' :
  serve (history ctx) w = (Responded 200 (Some items), w') →
  length items = Nat.min 100 (size (rows (db w))) ∧
  (∀ it, it ∈ items →
     ∃ r, rows (db w) !! Item.id it = Some r ∧
          Item.timestamp it = Row.timestamp r ∧
          Item.latitude it = Row.latitude r ∧
          Item.longitude it = Row.longitude r ∧
          Item.raw_prediction it = Row.raw_prediction r ∧
          Item.decision_score it = Row.decision_score r) ∧
  (∀ k r, rows (db w) !! k = Some r →
     (∃ it, it ∈ items ∧ Item.id it = k) ∨ (∀ it, it ∈ items → k < Item.id it)).
Proof.
  intros (_ & _ & _ & Hm)%serve_history_200. pose proof Hm as HF%mapM_Ok.
  split; [|split].
  - rewrite (mapM_length _ _ _ Hm). unfold select_recent.
    by rewrite length_take, merge_sort_Permutation, length_map_to_list.
  - intros it [i Hi]%list_elem_of_lookup.
    destruct (Forall2_lookup_r _ _ _ _ _ HF Hi) as ([k r] & Hkr & Hit).
    apply history_item_columns in Hit as (Hid & ? & ? & ? & ? & ? & _).
    simpl in *. exists r. rewrite Hid.
    split; [|done]. apply select_recent_elem. by eapply list_elem_of_lookup_2.
  - intros k r Hr.
    assert ((k, r) ∈ merge_sort id_desc (map_to_list (rows (db w)))) as Hin.
    { rewrite merge_sort_Permutation. by apply elem_of_map_to_list. }
    rewrite <- (take_drop 100) in Hin. apply elem_of_app in Hin as [Hin | Hin].
    + left. apply list_elem_of_lookup in Hin as [i Hi].
      destruct (Forall2_lookup_l _ _ _ _ _ HF Hi) as (it & Hit & Hitem).
      apply history_item_columns in Hitem as (Hid & _).
      exists it. split; [by eapply list_elem_of_lookup_2 | done].
    + right. intros it [i Hi]%list_elem_of_lookup.
      destruct (Forall2_lookup_r _ _ _ _ _ HF Hi) as ([k' r'] & Hkr & Hit).
      apply history_item_columns in Hit as (Hid & _). simpl in Hid. rewrite Hid.
      pose proof (sorted_rows_strict (rows (db w))) as Hsorted.
      rewrite <- (take_drop 100) in Hsorted.
      apply (StronglySorted_app_1_elem_of id_gt _ _ (k', r') (k, r) Hsorted);
        [by eapply list_elem_of_lookup_2 | done].
Qed.


(** X19. What [GET /history] shows of a prediction is what [POST /predict]
    answered: right after a successful request the first record returned
    carries the label and the raw verdict of the answer, its score as the
    REAL column holds it (the score itself, but null for a NaN and 0.0
    for a negative zero) and the time of the request; the label is
    "CRITICAL" or "SAFE". *)
Theorem history_shows_the_answer ctx data w p w' ctx' items w'' :
  serve (predict ctx data) w = (Responded 200 (Some p), w') →
  serve (history ctx') w' = (Responded 200 (Some items), w'') →
  ∃ it, items !! 0%nat = Some it ∧
        Item.label it = Prediction.label p ∧
        Item.raw_prediction it = Some (Prediction.raw_prediction p) ∧
        Item.decision_score it =
          (if is_nan (Prediction.decision_score p) then None
           else if (Prediction.decision_score p =? 0)%float then Some 0%float
           else Some (Prediction.decision_score p)) ∧
        Item.timestamp it = Some (now ctx) ∧
        (Prediction.label p = "CRITICAL" ∨ Prediction.label p = "SAFE").
Proof.
  intros (id & r & raw & score & trig & lat & lon & feats & _ & -> & _ & _ & _
          & Hr & Hdb & _ & Htop & _)%serve_predict_200_row
         (_ & _ & _ & Hm)%serve_history_200.
  rewrite Hdb, select_recent_insert_top in Hm by done.
  rewrite mapM_cons in Hm.
  apply result_bind_Ok in Hm as (it & Hit & (k & _ & [= <-])%result_bind_Ok).
  exists it. split; [done |].
  apply history_item_columns in Hit as (_ & Hts & _ & _ & Hraw & Hscore & Hlabel).
  simpl in *. rewrite Hts, Hraw, Hscore, Hlabel, Hr. simpl.
  split; [by apply label_on_read_final_label |]. do 3 (split; [done |]).
  unfold final_label. destruct (_ || _); auto.
Qed.
(** X20. When the scaler or the model raises on the vector, the request
    ends there: it is answered as a failed request, and no mail is sent,
    no line printed and no row written. *)
Theorem artifact_failure_leaves_no_trace ctx data w X e :
  build_vector data = Ok X →
  scaler_transform X = Raise e ∨
  (∃ X_scaled, scaler_transform X = Ok X_scaled ∧
     (model_predict X_scaled = Raise e ∨
      (is_Ok (model_predict X_scaled) ∧ model_decision_function X_scaled = Raise e))) →
  serve (predict ctx data) w = (failed e, w).
Proof.
  intros HX Hfail. rewrite serve_predict. unfold verdict. rewrite HX. simpl.
  destruct Hfail as [-> | (Xs & -> & Hmodel)]; [done |]. simpl.
  destruct Hmodel as [-> | [[raw ->] Hscore]]; [done |]. simpl. by rewrite Hscore.
Qed.

(** X21. The rows [predict] writes are well labelled: they have no state
    and no district, a raw verdict, and a label that is "CRITICAL" or
    "SAFE", never "SAFE" beside a verdict of -1. A table of such rows
    stays one through any sequence of requests, and [GET /history]
    returns each of its records under its stored label. *)
Theorem rows_stay_well_labelled w reqs :
  (∀ id r, rows (db w) !! id = Some r → well_labelled r) →
  (∀ id r, rows (db (run w reqs)) !! id = Some r → well_labelled r) ∧
  (∀ ctx items w' it,
     serve (history ctx) (run w reqs) = (Responded 200 (Some items), w') →
     it ∈ items →
     ∃ r, rows (db (run w reqs)) !! Item.id it = Some r ∧ Row.label r = Some (Item.label it)).
Proof.
  intros Hw.
  assert (∀ id r, rows (db (run w reqs)) !! id = Some r → well_labelled r) as Hrun.
  { unfold run. revert w Hw. induction reqs as [|[ctx req] reqs IH]; intros w Hw; [done |].
    simpl. apply IH. intros id r.
    destruct req as [|data| |]; unfold step; simpl.
    - destruct w. apply Hw.
    - destruct (serve_predict_written ctx data w) as [-> | (id' & r' & -> & _ & Hr')];
        [apply Hw |].
      intros [[_ <-] | [_ Hr]]%lookup_insert_Some; [done | by eapply Hw].
    - rewrite serve_history_world. apply Hw.
    - rewrite serve_init_db. apply Hw. }
  split; [done |].
  intros ctx items w' it Hh [i Hi]%list_elem_of_lookup.
  destruct (history_rows _ _ _ _ _ _ Hh Hi) as (r & _ & Hr & Hl & _).
  exists r. split; [done |]. rewrite Hl.
  destruct (Hrun _ _ Hr) as (_ & _ & raw & _ & [Hc | [Hs _]]);
    unfold label_on_read; by rewrite ?Hc, ?Hs.
Qed.
End Further.
(** * Examples *)

Section Examples.
#[local] Existing Instance Demo.runtime.
#[local] Existing Instance Demo.artifacts.



(** C2, a counterexample to the claim as stated: the empty object misses every feature field,
    and the answer is not a client error. *)
Lemma missing_field_is_not_client_error :
  feature_value (PDict ∅) "Total Natural Discharges"
    = Raise (Exn KeyError "Total Natural Discharges") ∧
  ¬ client_error (serve (predict Demo.quiet (PDict ∅)) Demo.empty_world).1.
Proof.
  split; [done |]. intros (status & body & Hr & Hs).
  vm_compute in Hr. injection Hr as <- <-. lia.
Qed.

(** C2 on the empty object. *)
Lemma invalid_payload_answers_500_witness :
  serve (predict Demo.alerting (PDict ∅)) Demo.legacy_world
  = (Responded 500 None, Demo.legacy_world).
Proof.
  apply (invalid_payload_answers_500 Demo.alerting (PDict ∅) Demo.legacy_world
           "Total Natural Discharges" (Exn KeyError "Total Natural Discharges")).
  - unfold features_order. set_solver.
  - reflexivity.
Defined.

(** C3 on a run without alerting and a run whose login is rejected. *)
Lemma alert_outcome_is_invisible_witness :
  (serve (predict Demo.quiet (Demo.payload Demo.low [])) Demo.legacy_world).1
  = (serve (predict Demo.rejected (Demo.payload Demo.low [])) Demo.legacy_world).1 ∧
  db (serve (predict Demo.quiet (Demo.payload Demo.low [])) Demo.legacy_world).2
  = db (serve (predict Demo.rejected (Demo.payload Demo.low [])) Demo.legacy_world).2.
Proof.
  apply (alert_outcome_is_invisible Demo.quiet Demo.rejected).
  - constructor.
  - repeat constructor.
  - reflexivity.
  - reflexivity.
Defined.

(** C4 on the legacy table. *)
Lemma history_at_most_100_descending_witness :
  ∃ items, serve (history Demo.quiet) Demo.legacy_world
           = (Responded 200 (Some items), Demo.legacy_world) ∧
           (length items ≤ 100)%nat.
Proof.
  destruct (history_at_most_100_descending Demo.quiet Demo.legacy_world) as [Hsound Hruns].
  destruct Hruns as [items Hitems]; [reflexivity | reflexivity | |].
  - intros id r Hr. unfold Demo.legacy_world in Hr. simpl in Hr.
    apply lookup_insert_Some in Hr as [[_ <-] | [_ Hr]]; [vm_compute; by eexists |].
    apply lookup_insert_Some in Hr as [[_ <-] | [_ Hr]]; [vm_compute; by eexists |].
    by rewrite lookup_empty in Hr.
  - exists items. split; [done |]. by destruct (Hsound items _ Hitems).
Defined.

(** C5, a counterexample to the claim as stated: a stored label that is not null, the empty
    string, is not returned unchanged. *)
Lemma empty_label_is_replaced :
  Row.label Demo.blank_row = Some "" ∧
  ∃ it, serve (history Demo.quiet) Demo.blank_world
        = (Responded 200 (Some [it]), Demo.blank_world) ∧
        rows (db Demo.blank_world) !! Item.id it = Some Demo.blank_row ∧
        Item.label it = "CRITICAL".
Proof. split; [done |]. eexists. split; [by vm_compute |]. by vm_compute. Qed.

(** C5 on the legacy table, whose labels are null. *)
Lemma history_label_on_read_witness :
  Forall (λ it, ∃ r, rows (db Demo.legacy_world) !! Item.id it = Some r ∧
                     (Row.label r = None ∨ Row.label r = Some "" →
                      Item.label it = if bool_decide (Row.raw_prediction r = Some (-1))
                                      then "CRITICAL" else "SAFE") ∧
                     (∀ l, Row.label r = Some l → l ≠ "" → Item.label it = l))
         Demo.legacy_items.
Proof.
  apply Forall_forall. intros it Hit.
  apply (history_label_on_read Demo.quiet Demo.legacy_world Demo.legacy_items
           Demo.legacy_world it); [vm_compute; reflexivity | exact Hit].
Defined.

(** C6, a counterexample to the claim as stated: the latitude is supplied and not castable, the
    rest of the request is valid, and no record is persisted, with or
    without a null latitude. *)
Lemma uncastable_latitude_persists_nothing :
  is_Ok (verdict Demo.garbled_latitude) ∧
  py_get Demo.garbled_latitude "latitude" = Ok (PStr "abc") ∧
  py_float (PStr "abc") = Raise (Exn ValueError "could not convert string to float") ∧
  serve (predict Demo.quiet Demo.garbled_latitude) Demo.empty_world
  = (Responded 500 None, Demo.empty_world).
Proof.
  split; [vm_compute; by eexists |]. split; [by vm_compute |].
  split; by vm_compute.
Qed.

(** C6 on a payload with a castable latitude and no longitude, which is
    saved at latitude 12.0, and on a payload with a latitude that is not
    a number, which fails after its alert has left. *)
Lemma coordinates_persisted_witness :
  (∃ id r,
     rows (db (serve (predict Demo.quiet Demo.at_twelve) Demo.empty_world).2)
     = <[id := r]> (rows (db Demo.empty_world)) ∧
     Row.latitude r = Some 12%float ∧ Row.longitude r = None) ∧
  serve (predict Demo.alerting Demo.garbled_latitude) Demo.empty_world
  = (Responded 500 None,
     World (Table ∅ 0)
       [Email "sender@example.org" "ops@example.org" "Groundwater Alert: SAFE"
          ("Groundwater condition at (abc, None) is SAFE." +:+ LF
             +:+ "Decision Score: 0.5")]
       ["Email sent successfully to ops@example.org"]).
Proof.
  split.
  - destruct (proj1 (coordinates_persisted Demo.quiet Demo.at_twelve Demo.empty_world)
                (Prediction.mk true "SAFE" 1 0.5)
                (serve (predict Demo.quiet Demo.at_twelve) Demo.empty_world).2)
      as (id & r & Hrows & _ & (d & Hd & _ & _ & Hlat) & (d' & Hd' & Hlon & _)).
    + vm_compute. reflexivity.
    + exists id, r. split; [exact Hrows |].
      injection Hd as <-. injection Hd' as <-. split.
      * destruct (Hlat (PStr "12")) as (x & Hx & ->); [reflexivity | reflexivity |].
        vm_compute in Hx. injection Hx as <-. reflexivity.
      * apply Hlon. reflexivity.
  - destruct (proj2 (coordinates_persisted Demo.alerting Demo.garbled_latitude
                       Demo.empty_world)
                (list_to_map (zip features_order Demo.low ++ [("latitude", PStr "abc")]))
                "latitude" (PStr "abc")
                (Exn ValueError "could not convert string to float"))
      as (_ & _ & Hfails).
    + reflexivity.
    + left. reflexivity.
    + vm_compute. reflexivity.
    + reflexivity.
    + reflexivity.
    + assert (verdict Demo.garbled_latitude = Ok (1, 0.5%float, false)) as Hv.
      { vm_compute. reflexivity. }
      assert (only_Exception (smtp Demo.alerting)) as Hx.
      { constructor. }
      destruct (Hfails 1 0.5%float false _ Hv Hx eq_refl eq_refl) as [-> _].
      vm_compute. reflexivity.
Defined.

(** C7 with the codec of the fixtures. *)
Lemma features_round_trip_witness :
  ∃ id features,
    rows (db Demo.legacy_world) !! id = None ∧
    submitted_features Demo.at_twelve features.
Proof.
  destruct (features_round_trip Demo.quiet Demo.at_twelve Demo.legacy_world
              (Prediction.mk true "SAFE" 1 0.5)
              (serve (predict Demo.quiet Demo.at_twelve) Demo.legacy_world).2)
    as (id & features & Hfresh & Hsub & _).
  - vm_compute. reflexivity.
  - intros features Hf. vm_compute in Hf. injection Hf as <-. vm_compute. reflexivity.
  - by exists id, features.
Defined.

(** C8 on the legacy table. *)
Lemma predict_appends_one_record_witness :
  ∃ id r,
    rows (db (serve (predict Demo.quiet Demo.at_twelve) Demo.legacy_world).2)
    = <[id := r]> (rows (db Demo.legacy_world)) ∧
    (∀ k r', rows (db Demo.legacy_world) !! k = Some r' → k < id).
Proof.
  destruct (predict_appends_one_record Demo.quiet Demo.at_twelve Demo.legacy_world
              (Prediction.mk true "SAFE" 1 0.5)
              (serve (predict Demo.quiet Demo.at_twelve) Demo.legacy_world).2)
    as (id & r & Hrows & _ & Htop & _).
  - vm_compute. reflexivity.
  - by exists id, r.
Defined.

(** C9 on a request at latitude 0. *)
Lemma falsy_coordinate_persisted_as_null_witness :
  ∃ id r,
    rows (db (serve (predict Demo.quiet Demo.on_equator) Demo.empty_world).2)
    = <[id := r]> (rows (db Demo.empty_world)) ∧
    Row.latitude r = None.
Proof.
  destruct (falsy_coordinate_persisted_as_null Demo.quiet Demo.on_equator Demo.empty_world
              (Prediction.mk true "SAFE" 1 0.5)
              (serve (predict Demo.quiet Demo.on_equator) Demo.empty_world).2)
    as (id & r & Hrows & _ & Hlat & _).
  - vm_compute. reflexivity.
  - exists id, r. split; [exact Hrows |].
    apply (Hlat (PInt 0)); reflexivity.
Defined.

(** C10 on a commit that finds the database locked. *)
Lemma alert_precedes_failed_insert_witness :
  serve (predict Demo.locked (Demo.payload Demo.low [])) Demo.empty_world
  = (Responded 500 None,
     World (Table ∅ 0)
       [Email "sender@example.org" "ops@example.org" "Groundwater Alert: SAFE"
          ("Groundwater condition at (None, None) is SAFE." +:+ LF
             +:+ "Decision Score: 0.5")]
       ["Email sent successfully to ops@example.org"]).
Proof.
  assert (ends_visible (py_str (PFloat 0.5))) as Hvis.
  { exists "0.", "5"%char. split; vm_compute; reflexivity. }
  pose proof (alert_precedes_failed_insert Demo.locked
                (list_to_map (zip features_order Demo.low ++ []))
                Demo.empty_world 1 0.5%float false
                "ops@example.org" "sender@example.org" "secret"
                (Exn OperationalError "database is locked")
                (Email "sender@example.org" "ops@example.org" "Groundwater Alert: SAFE"
                   ("Groundwater condition at (None, None) is SAFE." +:+ LF
                      +:+ "Decision Score: 0.5"))) as Hw.
  vm_compute in Hw |- *. apply Hw; try reflexivity; try discriminate.
  vm_compute in Hvis. exact Hvis.
Defined.

(** X2 on a session whose login is rejected, and on a destination that
    carries a second header, which the [email] package refuses to write. *)
Lemma send_email_alert_logs_one_line_witness :
  stdout (world_of (send_email_alert Demo.rejected "subject" "body" "ops@example.org"
                      (ReqState Demo.empty_world None)).2)
  = ["Email sending failed: Username and Password not accepted"] ∧
  stdout (world_of (send_email_alert Demo.alerting "subject" "body"
                      ("ops@example.org" +:+ LF +:+ "Bcc: all@example.org")
                      (ReqState Demo.empty_world None)).2)
  = ["Email sending failed: header value appears to contain an embedded header"].
Proof.
  assert (only_Exception (smtp Demo.rejected)) as Hrejected.
  { repeat constructor. }
  assert (only_Exception (smtp Demo.alerting)) as Halerting.
  { constructor. }
  split.
  - exact (proj2 (send_email_alert_logs_one_line Demo.rejected "subject" "body"
                    "ops@example.org" (ReqState Demo.empty_world None) Hrejected)).
  - exact (proj2 (send_email_alert_logs_one_line Demo.alerting "subject" "body"
                    ("ops@example.org" +:+ LF +:+ "Bcc: all@example.org")
                    (ReqState Demo.empty_world None) Halerting)).
Defined.

(** X3 on a session that is dropped at [quit]. *)
Lemma quit_failure_reported_after_delivery_witness :
  send_email_alert Demo.hangup "subject" "body" "ops@example.org"
    (ReqState Demo.empty_world None)
  = (Ok tt,
     ReqState (World (Table ∅ 0)
                 [Email "sender@example.org" "ops@example.org" "subject" "body"]
                 ["Email sending failed: Connection unexpectedly closed"]) None).
Proof.
  apply (quit_failure_reported_after_delivery Demo.hangup "subject" "body"
           "ops@example.org" (ReqState Demo.empty_world None)
           (Exn SMTPException "Connection unexpectedly closed")); reflexivity.
Defined.

(** X4 on a context without [ALERT_EMAIL]. *)
Lemma no_destination_no_alert_witness :
  outbox (serve (predict Demo.quiet Demo.high) Demo.empty_world).2 = [] ∧
  stdout (serve (predict Demo.quiet Demo.high) Demo.empty_world).2 = [].
Proof.
  apply (no_destination_no_alert Demo.quiet Demo.high Demo.empty_world). reflexivity.
Defined.

(** X5 on a payload labelled "CRITICAL", whose alert leaves, and on a
    destination that carries a second header, to which none leaves. *)
Lemma alert_sent_for_every_label_witness :
  outbox (serve (predict Demo.alerting Demo.high) Demo.empty_world).2
  = [Email "sender@example.org" "ops@example.org" "Groundwater Alert: CRITICAL"
       ("Groundwater condition at (None, None) is CRITICAL." +:+ LF
          +:+ "Decision Score: 0.5")] ∧
  outbox (serve (predict Demo.injected Demo.high) Demo.empty_world).2 = [].
Proof.
  assert (ends_visible (py_str (PFloat 0.5))) as Hvis.
  { exists "0.", "5"%char. split; vm_compute; reflexivity. }
  assert (verdict Demo.high = Ok (-1, 0.5%float, true)) as Hv.
  { vm_compute. reflexivity. }
  pose proof (alert_sent_for_every_label Demo.alerting
                (list_to_map (zip features_order (PInt 60000 :: replicate 8 (PInt 10)) ++ []))
                Demo.empty_world (-1) 0.5%float true _ Hv Hvis eq_refl) as Hsent.
  pose proof (alert_sent_for_every_label Demo.injected
                (list_to_map (zip features_order (PInt 60000 :: replicate 8 (PInt 10)) ++ []))
                Demo.empty_world (-1) 0.5%float true _ Hv Hvis eq_refl) as Hnone.
  split.
  - etrans; [exact Hsent |]. vm_compute. reflexivity.
  - etrans; [exact Hnone |]. vm_compute. reflexivity.
Defined.

(** X8 on three reads of the legacy table. *)
Lemma reads_leave_no_trace_witness :
  run Demo.legacy_world
    [(Demo.quiet, GetHistory); (Demo.alerting, GetIndex); (Demo.locked, GetHistory)]
  = Demo.legacy_world.
Proof.
  apply (reads_leave_no_trace Demo.quiet Demo.legacy_world).
  repeat (constructor; [simpl; auto |]). constructor.
Defined.

(** X7 on a commit that finds the database locked. *)
Lemma uncommitted_insert_is_lost_witness :
  db (serve (predict Demo.locked Demo.high) Demo.legacy_world).2 = db Demo.legacy_world.
Proof.
  apply (uncommitted_insert_is_lost Demo.locked Demo.high Demo.legacy_world
           (Exn OperationalError "database is locked")).
  reflexivity.
Defined.

(** X12 on the payload at the thresholds. *)
Lemma build_vector_shape_witness :
  ∃ X, build_vector Demo.at_limits = Ok X ∧ length X = 9%nat.
Proof.
  assert (build_vector Demo.at_limits
          = Ok [40075; 9366; 4850; 12124; 5597; 35530; 4215; 26498; 60.7]%float) as HX
    by (vm_compute; reflexivity).
  eexists. split; [exact HX |].
  exact (proj1 (build_vector_shape Demo.at_limits _ HX)).
Defined.

(** X13 on the flagged payload. *)
Lemma threshold_trigger_of_vector_witness :
  threshold_trigger Demo.high = Ok true.
Proof.
  rewrite (threshold_trigger_of_vector Demo.high
             (60000%float :: replicate 8 10%float)); vm_compute; reflexivity.
Defined.

(** X14 on a payload with a field the application does not know. *)
Lemma unknown_fields_are_ignored_witness :
  serve (predict Demo.alerting Demo.low_with_note) Demo.legacy_world
  = serve (predict Demo.alerting (Demo.payload Demo.low [])) Demo.legacy_world.
Proof.
  apply (unknown_fields_are_ignored Demo.alerting).
  intros k Hk. unfold features_order in Hk. simpl in Hk.
  repeat (apply elem_of_cons in Hk as [->|Hk]; [vm_compute; reflexivity |]).
  by apply elem_of_nil in Hk.
Defined.

(** X15 on a payload without its first and its third feature. *)
Lemma first_invalid_field_is_raised_witness :
  build_vector Demo.two_missing
  = Raise (Exn KeyError "Recharge from rainfall During Monsoon Season").
Proof.
  apply (first_invalid_field_is_raised Demo.two_missing 0
           "Recharge from rainfall During Monsoon Season").
  - reflexivity.
  - intros j g Hj. lia.
  - vm_compute. reflexivity.
Defined.

(** X16 on the empty and the legacy table. *)
Lemma answer_independent_of_world_witness :
  (serve (predict Demo.alerting Demo.high) Demo.empty_world).1
  = (serve (predict Demo.alerting Demo.high) Demo.legacy_world).1.
Proof.
  apply answer_independent_of_world; vm_compute; by eexists.
Defined.

(** X17 on the legacy table. *)
Lemma history_returns_newest_witness :
  length Demo.legacy_items = Nat.min 100 (size (rows (db Demo.legacy_world))).
Proof.
  eapply (history_returns_newest Demo.quiet Demo.legacy_world Demo.legacy_items
            Demo.legacy_world).
  vm_compute. reflexivity.
Defined.


(** X19 on a flagged payload written to the legacy table. *)
Lemma history_shows_the_answer_witness :
  ∃ it, Item.label it = "CRITICAL" ∧ Item.raw_prediction it = Some (-1) ∧
        Item.decision_score it = Some 0.5%float.
Proof.
  destruct (history_shows_the_answer Demo.quiet Demo.high Demo.legacy_world
              (Prediction.mk true "CRITICAL" (-1) 0.5)
              (serve (predict Demo.quiet Demo.high) Demo.legacy_world).2
              Demo.quiet
              (match (serve (history Demo.quiet)
                        (serve (predict Demo.quiet Demo.high) Demo.legacy_world).2).1 with
               | Responded _ (Some items) => items
               | _ => []
               end)
              (serve (predict Demo.quiet Demo.high) Demo.legacy_world).2)
    as (it & _ & Hl & Hr & Hs & _).
  - vm_compute. reflexivity.
  - vm_compute. reflexivity.
  - by exists it.
Defined.

(** X20 on a model that refuses a NaN. *)
Lemma artifact_failure_leaves_no_trace_witness :
  serve (predict (AF := Demo.strict_artifacts) Demo.alerting Demo.nan_stage)
    Demo.legacy_world
  = (Responded 500 None, Demo.legacy_world).
Proof.
  apply (artifact_failure_leaves_no_trace (AF := Demo.strict_artifacts) Demo.alerting
           Demo.nan_stage Demo.legacy_world (replicate 8 10%float ++ [nan])
           (Exn ValueError "Input X contains NaN.")).
  - vm_compute. reflexivity.
  - right. exists (replicate 8 10%float ++ [nan]). split; [reflexivity |].
    left. reflexivity.
Defined.

(** X21 from the empty table. *)
Lemma rows_stay_well_labelled_witness :
  ∃ r, rows (db (run Demo.empty_world
                   [(Demo.alerting, PostPredict Demo.high); (Demo.quiet, GetHistory);
                    (Demo.locked, PostPredict Demo.at_limits)])) !! 1 = Some r ∧
       well_labelled r.
Proof.
  assert (∀ id r, rows (db Demo.empty_world) !! id = Some r → well_labelled r) as Hempty.
  { intros id r Hr. simpl in Hr. by rewrite lookup_empty in Hr. }
  eexists. split; [vm_compute; reflexivity |].
  eapply (proj1 (rows_stay_well_labelled Demo.empty_world
            [(Demo.alerting, PostPredict Demo.high); (Demo.quiet, GetHistory);
             (Demo.locked, PostPredict Demo.at_limits)] Hempty) 1).
  vm_compute. reflexivity.
Defined.
End Examples.
